(** * skopt/parameter.py: search-space dimensions, grid normalisation, sampling

    A shallow embedding of [skopt/parameter.py].  Python values are an
    inductive type, Python lists live in a store of mutable objects (the
    caller and [check_grid] may hold the same list), exceptions are the left
    summand of a result type, and the random generators of numpy and scipy
    are an interface ([SciPy]) whose states are threaded explicitly.

    The transformers are kept as data.  Their [transform] methods are not
    modelled: those of [Log] and [Log10] are numpy's logarithm and
    exponential on binary floating-point numbers. *)

From Stdlib Require Import ZArith Floats.
From stdpp Require Import base option list strings.

#[local] Set Warnings "-register-all".
#[local] Set Warnings "-abstract-large-number".
#[local] Set Warnings "-inexact-float".

(** ** Values *)

Abbreviation loc := nat.

(** A [numpy.random.RandomState] object: the singleton behind [np.random], or
    an instance created from a seed. *)
Inductive rng_ref : Type :=
| GlobalRng
| Instance (i : nat).

(** Instances of [TransformerMixin]: the three stateless classes of the
    module, its [CategoricalEncoder], scikit-learn's [LabelEncoder], and any
    other transformer a caller may build.  A fitted encoder remembers the
    values it was fitted on. *)
Inductive Transformer_ (V : Type) : Type :=
| Identity
| Log10
| Log
| CategoricalEncoder (fitted : option (list V))
| LabelEncoder (fitted : option (list V))
| OtherTransformer (name : string).

Arguments Identity {V}.
Arguments Log10 {V}.
Arguments Log {V}.
Arguments CategoricalEncoder {V} fitted.
Arguments LabelEncoder {V} fitted.
Arguments OtherTransformer {V} name.

(** Random variates of scipy.  [uniform(loc, scale)] and [randint(low, high)]
    build frozen variates ([rv_frozen]); [rv_discrete(values=(xk, pk))] is an
    [rv_discrete] instance, which is not an [rv_frozen]. *)
Inductive rv_ (V : Type) : Type :=
| uniform (loc scale : V)
| randint (low high : V)
| frozen (name : string)
| rv_discrete (xk : list Z) (pk : V).

Arguments uniform {V} loc scale.
Arguments randint {V} low high.
Arguments frozen {V} name.
Arguments rv_discrete {V} xk pk.

Definition is_rv_frozen {V} (r : rv_ V) : bool :=
  match r with
  | rv_discrete _ _ => false
  | _ => true
  end.

(** The three subclasses of [Distribution], with the attributes their
    [__init__] sets. *)
Inductive Distribution_ (V : Type) : Type :=
| Real (_low _high : V) (transformer : Transformer_ V) (_rvs : rv_ V)
| Integer (_low _high : V) (transformer : Transformer_ V) (_rvs : rv_ V)
| Categorical (categories : list V) (transformer : Transformer_ V) (_rvs : rv_ V).

Arguments Real {V} _low _high transformer _rvs.
Arguments Integer {V} _low _high transformer _rvs.
Arguments Categorical {V} categories transformer _rvs.

Inductive val : Type :=
| VNone
| VBool (b : bool)
| VInt (z : Z)
| VFloat (f : float)
| VStr (s : string)
| VTuple (xs : list val)
| VList (l : loc)
| VArray (xs : list val)
| VTransformer (t : Transformer_ val)
| VRv (r : rv_ val)
| VDist (d : Distribution_ val)
| VRandomState (r : rng_ref)
| VObject (name : string).

Definition Transformer := Transformer_ val.
Definition rv := rv_ val.
Definition Distribution := Distribution_ val.

(** ** Exceptions *)

(** [ValueError] and [RuntimeError] carry the format string of their message
    and the value formatted into it. *)
Inductive exn : Type :=
| IndexError
| TypeError
| ValueError (msg : string) (arg : val)
| RuntimeError (msg : string) (arg : val)
| NameError (name : string)
| AttributeError (attr : string)
| ZeroDivisionError
| OverflowError.

Definition result (A : Type) : Type := (exn + A)%type.

Definition ok {A} (a : A) : result A := inr a.
Definition raise {A} (e : exn) : result A := inl e.

Definition rbind {A B} (r : result A) (k : A -> result B) : result B :=
  match r with
  | inl e => inl e
  | inr a => k a
  end.

Notation "x <-? c ;; k" := (rbind c (fun x => k))
  (at level 100, c at next level, right associativity).

Definition raises {A} (r : result A) : Prop :=
  match r with
  | inl _ => True
  | inr _ => False
  end.

(** ** The store of list objects *)

(** A Python list is a mutable object: [VList l] refers to cell [l] of the
    store.  Tuples and strings are immutable and are values. *)
Abbreviation heap := (list (list val)).

(** Stateful code that may raise: the state survives the exception. *)
Definition ST (S A : Type) : Type := S -> S * result A.

Definition ret {S A} (a : A) : ST S A := fun h => (h, inr a).
Definition throw {S A} (e : exn) : ST S A := fun h => (h, inl e).
Definition lift {S A} (r : result A) : ST S A := fun h => (h, r).

Definition bind {S A B} (c : ST S A) (k : A -> ST S B) : ST S B :=
  fun h =>
    match c h with
    | (h', inl e) => (h', inl e)
    | (h', inr a) => k a h'
    end.

Notation "x <- c ;; k" := (bind c (fun x => k))
  (at level 100, c at next level, right associativity).

Abbreviation M := (ST heap).

(** [[x1, ..., xn]]: a new list object. *)
Definition new_list (xs : list val) : M val :=
  fun h => (h ++ [xs], inr (VList (length h))).

(** [lst.append(x)] *)
Definition list_append (l : loc) (x : val) : M unit :=
  fun h =>
    match h !! l with
    | Some xs => (<[l := xs ++ [x]]> h, inr tt)
    | None => (h, inl (AttributeError "append"))
    end.

(** [lst[i] = x] for [0 <= i]: Python raises IndexError out of range. *)
Definition list_setitem (l : loc) (i : nat) (x : val) : M unit :=
  fun h =>
    match h !! l with
    | Some xs =>
        if decide (i < length xs)%nat
        then (<[l := <[i := x]> xs]> h, inr tt)
        else (h, inl IndexError)
    | None => (h, inl TypeError)
    end.

(** ** Sequences, numbers and the built-ins the module calls *)

Definition chars (s : string) : list val :=
  (fun a => VStr (String a EmptyString)) <$> String.list_ascii_of_string s.

(** The items of an iterable: what [for x in v], [list(v)] and [f( *v)]
    walk through.  [None] stands for "not iterable". *)
Definition items (h : heap) (v : val) : option (list val) :=
  match v with
  | VStr s => Some (chars s)
  | VTuple xs => Some xs
  | VArray xs => Some xs
  | VList l => h !! l
  | _ => None
  end.

(** [isinstance(v, Sequence)]: lists, tuples and strings are registered as
    sequences; numpy arrays are not. *)
Definition isinstance_Sequence (h : heap) (v : val) : bool :=
  match v with
  | VStr _ | VTuple _ => true
  | VList l => bool_decide (is_Some (h !! l))
  | _ => false
  end.

Definition isinstance_Distribution (v : val) : bool :=
  match v with
  | VDist _ => true
  | _ => false
  end.

Definition isinstance_str (v : val) : bool :=
  match v with
  | VStr _ => true
  | _ => false
  end.

(** [isinstance(v, numbers.Integral)]: [bool] is a subclass of [int]. *)
Definition isinstance_Integral (v : val) : bool :=
  match v with
  | VBool _ | VInt _ => true
  | _ => false
  end.

(** [isinstance(v, numbers.Real)] *)
Definition isinstance_Real (v : val) : bool :=
  match v with
  | VBool _ | VInt _ | VFloat _ => true
  | _ => false
  end.

(** [isinstance(v, numbers.Number)]: the values of this model have no
    complex numbers, so the numbers are the reals. *)
Definition isinstance_Number (v : val) : bool := isinstance_Real v.

(** [xs[i]] with Python's negative indices. *)
Definition index {A} (xs : list A) (i : Z) : result A :=
  let n := Z.of_nat (length xs) in
  let j := if (i <? 0)%Z then (i + n)%Z else i in
  if ((0 <=? j)%Z && (j <? n)%Z)%bool
  then match xs !! Z.to_nat j with
       | Some x => ok x
       | None => raise IndexError
       end
  else raise IndexError.

(** [v[i]]: subscripting what is not a sequence or an array is a TypeError. *)
Definition getitem (v : val) (i : Z) : M val :=
  fun h =>
    match items h v with
    | Some xs => (h, index xs i)
    | None => (h, raise TypeError)
    end.

(** [len(v)] *)
Definition len (v : val) : M nat :=
  fun h =>
    match items h v with
    | Some xs => (h, ok (length xs))
    | None => (h, raise TypeError)
    end.

(** [iter(v)], as the list of items the loop will see. *)
Definition iterate (v : val) : M (list val) :=
  fun h =>
    match items h v with
    | Some xs => (h, ok xs)
    | None => (h, raise TypeError)
    end.

(** [v == s] for a string literal [s].  numpy compares an array with a
    string element by element, with an outcome that depends on its version:
    an array counts as unequal here. *)
Definition eq_str (v : val) (s : string) : bool :=
  match v with
  | VStr s' => String.eqb s' s
  | _ => false
  end.

(** Conversion of an [int] to a [float]: round to nearest, OverflowError
    when the integer is beyond the largest double. *)
Definition float_of_int (z : Z) : result float :=
  let f := SF2Prim (binary_normalize prec emax z 0 false) in
  if PrimFloat.is_infinity f then raise OverflowError else ok f.

Inductive number : Type :=
| NInt (z : Z)
| NFloat (f : float).

Definition as_number (v : val) : option number :=
  match v with
  | VBool b => Some (NInt (if b then 1 else 0))
  | VInt z => Some (NInt z)
  | VFloat f => Some (NFloat f)
  | _ => None
  end.

Definition to_float (n : number) : result float :=
  match n with
  | NInt z => float_of_int z
  | NFloat f => ok f
  end.

(** [a - b] on numbers; anything else has no subtraction here. *)
Definition sub (a b : val) : result val :=
  match as_number a, as_number b with
  | Some (NInt x), Some (NInt y) => ok (VInt (x - y))
  | Some x, Some y =>
      fx <-? to_float x ;;
      fy <-? to_float y ;;
      ok (VFloat (fx - fy)%float)
  | _, _ => raise TypeError
  end.

(** ** The names of the module *)

(** What the module's global namespace binds once the file is loaded: its
    imports, its classes and its two functions. *)
Definition module_globals : list string :=
  [ "Sequence"; "abc"; "numbers"; "np";
    "randint"; "rv_discrete"; "rv_frozen"; "uniform";
    "BaseEstimator"; "TransformerMixin"; "LabelEncoder"; "OneHotEncoder";
    "check_random_state"; "sp_version";
    "Identity"; "Log10"; "Log"; "Distribution"; "CategoricalEncoder";
    "Real"; "Integer"; "Categorical"; "check_grid"; "sample_points" ]%string.

(** The built-in names: none of the names looked up below is one of the
    built-ins the module uses, which are listed for the lookup to consult. *)
Definition builtins : list string :=
  [ "isinstance"; "len"; "list"; "enumerate"; "range"; "tuple"; "str";
    "RuntimeError"; "ValueError" ]%string.

(** Reading a name that is neither local nor an attribute: the module's
    globals, then the built-ins, else NameError. *)
Definition lookup_global (name : string) : result val :=
  if existsb (String.eqb name) (module_globals ++ builtins)
  then ok (VObject name)
  else raise (NameError name).

(** ** numpy helpers *)

Definition clip_number (x lo hi : number) : result val :=
  match x, lo, hi with
  | NInt x, NInt lo, NInt hi => ok (VInt (Z.min (Z.max x lo) hi))
  | _, _, _ =>
      fx <-? to_float x ;;
      fl <-? to_float lo ;;
      fh <-? to_float hi ;;
      let m := if (fx <? fl)%float then fl else fx in
      ok (VFloat (if (fh <? m)%float then fh else m))
  end.

Fixpoint mapR {A B} (f : A -> result B) (xs : list A) : result (list B) :=
  match xs with
  | [] => ok []
  | x :: xs' =>
      y <-? f x ;;
      ys <-? mapR f xs' ;;
      ok (y :: ys)
  end.

(** [v - 1] for a number or an array of numbers. *)
Definition minus_one (v : val) : result val :=
  match v with
  | VArray xs => ys <-? mapR (fun x => sub x (VInt 1)) xs ;; ok (VArray ys)
  | _ => sub v (VInt 1)
  end.

(** [np.clip(a, a_min, a_max)] for a scalar or an array of numbers and two
    scalar bounds. *)
Definition np_clip (a a_min a_max : val) : result val :=
  match as_number a_min, as_number a_max with
  | Some lo, Some hi =>
      let clip1 (x : val) :=
        match as_number x with
        | Some n => clip_number n lo hi
        | None => raise TypeError
        end in
      match a with
      | VArray xs => ys <-? mapR clip1 xs ;; ok (VArray ys)
      | _ => clip1 a
      end
  | _, _ => raise TypeError
  end.

(** [arr[choices]] for an integer or an array of integers. *)
Definition np_take (arr : list val) (choices : val) : result val :=
  let take1 (c : val) :=
    match c with
    | VInt k => index arr k
    | _ => raise IndexError
    end in
  match choices with
  | VArray cs => ys <-? mapR take1 cs ;; ok (VArray ys)
  | _ => take1 choices
  end.

(** [np.tile(x, n)] for a scalar [x] *)
Definition np_tile (x : val) (n : nat) : val := VArray (replicate n x).

(** [range(n)] *)
Definition range (n : nat) : list Z := Z.of_nat <$> seq 0 n.

(** ** Construction of the distributions *)

(** The instance while its [__init__] runs: an attribute is [None] until the
    constructor assigns it, and reading it before is an AttributeError. *)
Record self_ : Type := mk_self {
  _low : option val;
  _high : option val;
  transformer : option Transformer;
  _rvs : option rv
}.

Definition getattr {A} (name : string) (field : option A) : result A :=
  match field with
  | Some a => ok a
  | None => raise (AttributeError name)
  end.

Definition not_a_transformer : string := "%s is not a valid transformer.".
Definition bad_prior : string :=
  "prior should be either 'uniform' or a rv frozen object. Got %s".

(** [fmt % v] for a format with a single [%s]: a tuple is the list of the
    arguments, of which the format takes exactly one; any other value is the
    argument itself. *)
Definition format_arg (v : val) : result val :=
  match v with
  | VTuple [x] => ok x
  | VTuple _ => raise TypeError
  | _ => ok v
  end.

(** [Real.__init__(self, low, high, prior, transformer)] *)
Definition Real_init (low high prior transformer_ : val) : result Distribution :=
  let self := mk_self (Some low) (Some high) None None in
  t <-? (if eq_str transformer_ "identity" then ok Identity
         else if eq_str transformer_ "log" then ok Log
         else if eq_str transformer_ "log10" then ok Log10
         else match transformer_ with
              | VTransformer t => ok t
              | _ => arg <-? format_arg transformer_ ;;
                     raise (RuntimeError not_a_transformer arg)
              end) ;;
  let self := mk_self (_low self) (_high self) (Some t) None in
  let otherwise : result rv :=
    got <-? getattr "_rvs" (_rvs self) ;;
    raise (ValueError bad_prior (VRv got)) in
  r <-? (if eq_str prior "uniform"
         then lo <-? getattr "_low" (_low self) ;;
              hi <-? getattr "_high" (_high self) ;;
              lo' <-? getattr "_low" (_low self) ;;
              scale <-? sub hi lo' ;;
              ok (uniform lo scale)
         else match prior with
              | VRv r => if is_rv_frozen r then ok r else otherwise
              | _ => otherwise
              end) ;;
  ok (Real low high t r).

(** [Integer.__init__(self, low, high, prior, transformer)].  Freezing
    [randint(low, high)] computes the support of the variate, [low] to
    [high - 1] (scipy 0.16 and later). *)
Definition Integer_init (low high prior transformer_ : val) : result Distribution :=
  let self := mk_self (Some low) (Some high) None None in
  t <-? (if eq_str transformer_ "identity" then ok Identity
         else match transformer_ with
              | VTransformer t => ok t
              | _ => arg <-? format_arg transformer_ ;;
                     raise (RuntimeError not_a_transformer arg)
              end) ;;
  let self := mk_self (_low self) (_high self) (Some t) None in
  let otherwise : result rv :=
    got <-? getattr "_rvs" (_rvs self) ;;
    raise (ValueError bad_prior (VRv got)) in
  r <-? (if eq_str prior "uniform"
         then lo <-? getattr "_low" (_low self) ;;
              hi <-? getattr "_high" (_high self) ;;
              _ <-? minus_one hi ;;
              ok (randint lo hi)
         else match prior with
              | VRv r => if is_rv_frozen r then ok r else otherwise
              | _ => otherwise
              end) ;;
  ok (Integer low high t r).

(** [Categorical.__init__(self, *categories, prior, transformer)].
    [np.asarray(categories)] is kept as the list of the categories, which is
    what it is for categories of one kind that are strings, numbers or
    [None]; its coercion of mixed categories and what it does with nested
    sequences are not modelled, and neither are the checks that
    [rv_discrete] makes of the prior.  The branch for ['onehot'] reads the
    global name [CategoryTransform]; were it bound to the module's encoder,
    the branch would build and fit one. *)
Definition Categorical_init (categories_ : list val) (prior transformer_ : val)
  : result Distribution :=
  let cats := categories_ in
  t <-? (if eq_str transformer_ "onehot"
         then _ <-? lookup_global "CategoryTransform" ;;
              ok (CategoricalEncoder (Some cats))
         else if eq_str transformer_ "labels"
         then ok (LabelEncoder (Some cats))
         else match transformer_ with
              | VTransformer t => ok t
              | _ => arg <-? format_arg transformer_ ;;
                     raise (RuntimeError not_a_transformer arg)
              end) ;;
  prior' <-? (match prior with
              | VNone =>
                  n <-? float_of_int (Z.of_nat (length cats)) ;;
                  if (n =? 0)%float then raise ZeroDivisionError
                  else ok (np_tile (VFloat (1 / n)%float) (length cats))
              | _ => ok prior
              end) ;;
  ok (Categorical cats t (rv_discrete (range (length cats)) prior')).

(** The defaults of the three signatures. *)
Definition Real_ (low high : val) : result Distribution :=
  Real_init low high (VStr "uniform") (VStr "identity").

Definition Integer_ (low high : val) : result Distribution :=
  Integer_init low high (VStr "uniform") (VStr "identity").

Definition Categorical_ (categories_ : list val) : result Distribution :=
  Categorical_init categories_ VNone (VStr "one-hot").

(** [Cls( *args)] for the two classes with two required positional
    parameters and two optional ones. *)
Definition apply_init (init : val -> val -> val -> val -> result Distribution)
  (prior transformer_ : val) (args : list val) : result Distribution :=
  match args with
  | [low; high] => init low high prior transformer_
  | [low; high; prior'] => init low high prior' transformer_
  | [low; high; prior'; transformer'] => init low high prior' transformer'
  | _ => raise TypeError
  end.

(** ** scipy, numpy.random and scikit-learn's helpers *)

(** [a < b] on tuples of integers (lexicographic), as in
    [sp_version < (0, 16)]. *)
Fixpoint tuple_lt (a b : list Z) : bool :=
  match a, b with
  | _, [] => false
  | [], _ :: _ => true
  | x :: a', y :: b' =>
      if (x <? y)%Z then true
      else if (y <? x)%Z then false
      else tuple_lt a' b'
  end.

(** The libraries behind the module: the installed scipy's version, the
    generator type of numpy, and the draws.  A draw takes the state of the
    generator it reads and gives the state it leaves. *)
Class SciPy : Type := {
  sp_version : list Z;
  RandomState : Type;
  (** [np.random.RandomState(seed)] *)
  RandomState_seed : Z -> result RandomState;
  (** [rng.randint(low, high)] *)
  RandomState_randint : Z -> Z -> RandomState -> RandomState * result Z;
  (** [r.rvs(size=size)] read from one generator *)
  rv_rvs : rv -> val -> RandomState -> RandomState * result val
}.

Section Sampling.
Context `{SciPy}.

(** The generators alive during a call: the singleton of [np.random] and
    the instances created so far. *)
Record rngs : Type := mk_rngs {
  np_random : RandomState;
  instances : list RandomState
}.

Abbreviation R := (ST rngs).

(** Run a draw on the generator object [r], which it mutates. *)
Definition with_rng {A} (r : rng_ref)
    (draw : RandomState -> RandomState * result A) : R A :=
  fun w =>
    match r with
    | GlobalRng =>
        let '(st, a) := draw (np_random w) in
        (mk_rngs st (instances w), a)
    | Instance i =>
        match instances w !! i with
        | Some st0 =>
            let '(st, a) := draw st0 in
            (mk_rngs (np_random w) (<[i := st]> (instances w)), a)
        | None => (w, raise (AttributeError "randint")) (* no such object *)
        end
    end.

Definition cannot_seed : string :=
  "%r cannot be used to seed a numpy.random.RandomState instance".

(** [check_random_state(seed)] of scikit-learn: the singleton for [None],
    a new generator for an integer, the generator itself when given one. *)
Definition check_random_state (seed : val) : R rng_ref :=
  fun w =>
    match seed with
    | VNone => (w, ok GlobalRng)
    | VRandomState r => (w, ok r)
    | VInt _ | VBool _ =>
        match as_number seed with
        | Some (NInt z) =>
            match RandomState_seed z with
            | inr st =>
                (mk_rngs (np_random w) (instances w ++ [st]),
                 ok (Instance (length (instances w))))
            | inl e => (w, raise e)
            end
        | _ => (w, raise (ValueError cannot_seed seed))
        end
    | _ => (w, raise (ValueError cannot_seed seed))
    end.

(** [r.rvs(size=size, random_state=random_state)]: with [None] the variate
    draws from the singleton, with an integer from a generator seeded for
    this one call, with a generator from that generator.  The keyword
    [random_state] came with scipy 0.16: before, [rvs] does not take it and
    the call is a TypeError. *)
Definition scipy_rvs (r : rv) (size random_state : val) : R val :=
  fun w =>
    if tuple_lt sp_version [0; 16]%Z then (w, raise TypeError) else
    match random_state with
    | VNone => with_rng GlobalRng (rv_rvs r size) w
    | VRandomState g => with_rng g (rv_rvs r size) w
    | VInt _ | VBool _ =>
        match as_number random_state with
        | Some (NInt z) =>
            match RandomState_seed z with
            | inr st => (w, snd (rv_rvs r size st))
            | inl e => (w, raise e)
            end
        | _ => (w, raise (ValueError cannot_seed random_state))
        end
    | _ => (w, raise (ValueError cannot_seed random_state))
    end.

(** ** The [rvs] methods *)

(** [Real.rvs(self, n_samples, random_state)].  [low] and [high] in the
    call of [np.clip] are neither parameters nor locals of the method, so
    they are read from the module's globals. *)
Definition Real_rvs (self_rvs : rv) (n_samples random_state : val) : R val :=
  random_vals <- scipy_rvs self_rvs n_samples random_state ;;
  low <- lift (lookup_global "low") ;;
  high <- lift (lookup_global "high") ;;
  lift (np_clip random_vals low high).

(** [Integer.rvs(self, n_samples, random_state)] *)
Definition Integer_rvs (self_rvs : rv) (n_samples random_state : val) : R val :=
  random_vals <- scipy_rvs self_rvs n_samples random_state ;;
  low <- lift (lookup_global "low") ;;
  high <- lift (lookup_global "high") ;;
  lift (np_clip random_vals low high).

(** [Categorical.rvs(self, n_samples, random_state)] *)
Definition Categorical_rvs (self_categories : list val) (self_rvs : rv)
    (n_samples random_state : val) : R val :=
  choices <- scipy_rvs self_rvs n_samples random_state ;;
  lift (np_take self_categories choices).

(** [dist.rvs(n_samples, random_state)], dispatched on the class. *)
Definition rvs (dist : Distribution) (n_samples random_state : val) : R val :=
  match dist with
  | Real _ _ _ r => Real_rvs r n_samples random_state
  | Integer _ _ _ r => Integer_rvs r n_samples random_state
  | Categorical cats _ r => Categorical_rvs cats r n_samples random_state
  end.

(** [v.rvs(...)] on any value found in a normalised grid: only a
    Distribution has the method. *)
Definition call_rvs (v : val) (n_samples random_state : val) : R val :=
  match v with
  | VDist d => rvs d n_samples random_state
  | _ => throw (AttributeError "rvs")
  end.

End Sampling.

(** ** check_grid *)

(** [lst.append(x)] and [lst[i] = x] on a value. *)
Definition append (lst : val) (x : val) : M unit :=
  match lst with
  | VList l => list_append l x
  | _ => throw (AttributeError "append")
  end.

Definition setitem (lst : val) (i : nat) (x : val) : M unit :=
  match lst with
  | VList l => list_setitem l i x
  | _ => throw TypeError
  end.

(** [for x in xs: body(x)] over the items the iterator yields. *)
Fixpoint for_each {S A} (xs : list A) (body : A -> ST S unit) : ST S unit :=
  match xs with
  | [] => ret tt
  | x :: xs' => _ <- body x ;; for_each xs' body
  end.

(** [for i, x in enumerate(lst): body(i, x)] on a list object: the iterator
    reads [lst[i]] from the store at every step, so it sees what the body
    has assigned, and stops at the end of the list.  [n] bounds the number
    of steps; the length of the list at the start is enough for a body that
    only assigns to [lst[i]]. *)
Fixpoint for_enumerate (n i : nat) (lst : val) (body : nat -> val -> M unit)
  : M unit :=
  match n with
  | O => ret tt
  | S n' =>
      fun h =>
        match items h lst ≫= (.!! i) with
        | None => (h, ok tt)
        | Some x => (_ <- body i x ;; for_enumerate n' (S i) lst body) h
        end
  end.

(** The body of the inner loop of [check_grid]: one spec of a sub-grid. *)
Definition check_dimension (sub_grid_ : val) (i : nat) (dist : val) : M unit :=
  if isinstance_Distribution dist then ret tt
  else
    n <- len dist ;;
    categorical <- (if (2 <? n)%nat then ret true
                    else d0 <- getitem dist 0 ;; ret (isinstance_str d0)) ;;
    if categorical : bool then
      args <- iterate dist ;;
      d <- lift (Categorical_ args) ;;
      setitem sub_grid_ i (VDist d)
    else
      d0 <- getitem dist 0 ;;
      if isinstance_Integral d0 then
        args <- iterate dist ;;
        d <- lift (apply_init Integer_init (VStr "uniform") (VStr "identity") args) ;;
        setitem sub_grid_ i (VDist d)
      else
        d0 <- getitem dist 0 ;;
        if isinstance_Real d0 then
          args <- iterate dist ;;
          d <- lift (apply_init Real_init (VStr "uniform") (VStr "identity") args) ;;
          setitem sub_grid_ i (VDist d)
        else ret tt.

(** The test that decides whether [grid] is one flat sub-grid. *)
Definition is_flat (grid : val) : M bool :=
  g0 <- getitem grid 0 ;;
  if isinstance_Distribution g0 then ret true
  else
    g0 <- getitem grid 0 ;;
    fun h =>
      if isinstance_Sequence h g0
      then (g0 <- getitem grid 0 ;;
            g00 <- getitem g0 0 ;;
            ret (isinstance_Number g00 || isinstance_str g00)) h
      else (h, ok false).

(** The body of the outer loop of [check_grid]: one sub-grid, copied into a
    new list that is recorded in [grid_] and then normalised in place. *)
Definition check_sub_grid (grid_ sub_grid : val) : M unit :=
  xs <- iterate sub_grid ;;
  sub_grid_ <- new_list xs ;;
  _ <- append grid_ sub_grid_ ;;
  for_enumerate (length xs) 0 sub_grid_ (check_dimension sub_grid_).

(** [check_grid(grid)] *)
Definition check_grid (grid : val) : M val :=
  flat <- is_flat grid ;;
  grid <- (if flat : bool then new_list [grid] else ret grid) ;;
  grid_ <- new_list [] ;;
  sub_grids <- iterate grid ;;
  _ <- for_each sub_grids (check_sub_grid grid_) ;;
  ret grid_.

(** Reading a grid back from the store: the sub-grids and their entries. *)
Definition read_grid (h : heap) (grid : val) : option (list (list val)) :=
  items h grid ≫= mapM (items h).

(** ** sample_points *)

Fixpoint mapST {S A B} (f : A -> ST S B) (xs : list A) : ST S (list B) :=
  match xs with
  | [] => ret []
  | x :: xs' =>
      y <- f x ;;
      ys <- mapST f xs' ;;
      ret (y :: ys)
  end.

(** What iterating a generator to its end shows: the values it yielded and
    the exception that ended it, if one did. *)
Record generated : Type := mk_generated {
  yielded : list val;
  raised : option exn
}.

Section SamplePoints.
Context `{SciPy}.

(** The body of the loop over [range(n_points)]: one point.  The store is
    only read. *)
Definition sample_point (h : heap) (grid_ : val) (rng : rng_ref)
  : ST rngs val :=
  n <- lift (snd (len grid_ h)) ;;
  k <- with_rng rng (RandomState_randint 0 (Z.of_nat n)) ;;
  sub_grid <- lift (snd (getitem grid_ k h)) ;;
  dists <- lift (snd (iterate sub_grid h)) ;;
  params <- mapST (fun dist =>
              if tuple_lt sp_version [0; 16]%Z
              then call_rvs dist VNone VNone
              else call_rvs dist VNone (VRandomState rng)) dists ;;
  ret (VTuple params).

Fixpoint sample_loop (h : heap) (grid_ : val) (rng : rng_ref) (n : nat)
    (w : rngs) : rngs * generated :=
  match n with
  | O => (w, mk_generated [] None)
  | S n' =>
      match sample_point h grid_ rng w with
      | (w', inl e) => (w', mk_generated [] (Some e))
      | (w', inr p) =>
          let '(w'', g) := sample_loop h grid_ rng n' w' in
          (w'', mk_generated (p :: yielded g) (raised g))
      end
  end.

(** [sample_points(grid, n_points, random_state)], iterated to its end
    (nothing of the body runs before the first [next]). *)
Definition sample_points (grid : val) (n_points : Z) (random_state : val)
    (h : heap) (w : rngs) : heap * rngs * generated :=
  match check_grid grid h with
  | (h', inl e) => (h', w, mk_generated [] (Some e))
  | (h', inr grid_) =>
      match check_random_state random_state w with
      | (w', inl e) => (h', w', mk_generated [] (Some e))
      | (w', inr rng) =>
          let '(w'', g) := sample_loop h' grid_ rng (Z.to_nat n_points) w' in
          (h', w'', g)
      end
  end.

End SamplePoints.

(** A small generator to run the code on: a linear congruential generator
    on 16 bits; a draw reads the high byte of the state and steps it. *)
Module Toy.

Definition step (st : Z) : Z := ((st * 25173 + 13849) mod 65536)%Z.

Definition bits (st : Z) : Z := (st / 256)%Z.

Definition pick (xs : list Z) (st : Z) : result val :=
  match xs !! Z.to_nat (bits st mod Z.of_nat (length xs)) with
  | Some x => ok (VInt x)
  | None => raise (ValueError "empty support" VNone)
  end.

Definition draw (r : rv) (size : val) (st : Z) : Z * result val :=
  (step st,
   match size with
   | VNone =>
       match r with
       | rv_discrete xk _ => pick xk st
       | randint (VInt lo) (VInt hi) =>
           if (lo <? hi)%Z then ok (VInt (lo + bits st mod (hi - lo)))
           else raise (ValueError "low >= high" VNone)
       | uniform lo _ => ok lo
       | _ => raise TypeError
       end
   | _ => raise TypeError
   end)%Z.

Definition scipy (version : list Z) : SciPy := {|
  sp_version := version;
  RandomState := Z;
  RandomState_seed := fun seed =>
    if ((seed <? 0) || (65535 <? seed))%Z
    then raise (ValueError "Seed must be between 0 and 2**16 - 1" (VInt seed))
    else ok seed;
  RandomState_randint := fun lo hi st =>
    (step st,
     if (lo <? hi)%Z then ok (lo + bits st mod (hi - lo))%Z
     else raise (ValueError "low >= high" VNone));
  rv_rvs := draw
|}.

End Toy.

(** * What the properties talk about *)

(** A prior the constructors accept: the string 'uniform' or a frozen
    variate. *)
Definition valid_prior (prior : val) : bool :=
  eq_str prior "uniform"
  || match prior with
     | VRv r => is_rv_frozen r
     | _ => false
     end.

(** The grids on which the test for a flat grid indexes out of range. *)
Definition empty_grid (h : heap) (grid : val) : Prop :=
  items h grid = Some [].

Definition first_is_empty_sequence (h : heap) (grid : val) : Prop :=
  exists g0 rest,
    items h grid = Some (g0 :: rest)
    /\ isinstance_Sequence h g0 = true
    /\ items h g0 = Some [].

(** Code that only reads the store. *)
Definition readonly {A} (c : M A) : Prop := forall h, fst (c h) = h.

Section Frames.
(** The store when [check_grid] is called. *)
Variable h0 : heap.

(** A list created during the call. *)
Definition fresh (v : val) : Prop :=
  exists l, v = VList l /\ (length h0 <= l)%nat.

(** From a store where [P] holds, [c] leaves the cells of [h0] as they
    were, whether it returns or raises, and a value it returns satisfies
    [Q] in the store it leaves. *)
Definition hoare {A} (P : heap -> Prop) (c : M A) (Q : A -> heap -> Prop)
  : Prop :=
  forall h, P h ->
    h0 `prefix_of` fst (c h)
    /\ forall a, snd (c h) = inr a -> Q a (fst (c h)).

(** [h0] is still there, and the list [g] that will be returned holds
    lists created during the call. *)
Definition building (g : loc) (h : heap) : Prop :=
  h0 `prefix_of` h
  /\ (length h0 <= g)%nat
  /\ exists subs, h !! g = Some subs /\ Forall fresh subs.

End Frames.

Section Generators.
Context `{SciPy}.

(** Two runs, each with the generator it created from the seed: [i1] in
    the first, [i2] in the second. *)
Variables (i1 i2 : nat).

(** The two generators are in the same state. *)
Definition same_generator (w1 w2 : rngs) : Prop :=
  exists st, instances w1 !! i1 = Some st /\ instances w2 !! i2 = Some st.

(** Two computations that return the same and keep the two generators in
    step, whatever the other generators hold. *)
Definition agree {A} (c1 c2 : ST rngs A) : Prop :=
  forall w1 w2, same_generator w1 w2 ->
    snd (c1 w1) = snd (c2 w2)
    /\ same_generator (fst (c1 w1)) (fst (c2 w2)).

End Generators.

(** ** What check_grid computes, as a function *)

(** The items of an iterable, or TypeError. *)
Definition read_items (h : heap) (v : val) : result (list val) :=
  match items h v with
  | Some xs => ok xs
  | None => raise TypeError
  end.

(** The entry that replaces the spec [dist] in the copy of its sub-grid. *)
Definition normalise_dimension (h : heap) (dist : val) : result val :=
  if isinstance_Distribution dist then ok dist
  else
    xs <-? read_items h dist ;;
    categorical <-? (if (2 <? length xs)%nat then ok true
                     else d0 <-? index xs 0 ;; ok (isinstance_str d0)) ;;
    if categorical : bool then
      d <-? Categorical_ xs ;; ok (VDist d)
    else
      d0 <-? index xs 0 ;;
      if isinstance_Integral d0 then
        d <-? apply_init Integer_init (VStr "uniform") (VStr "identity") xs ;;
        ok (VDist d)
      else if isinstance_Real d0 then
        d <-? apply_init Real_init (VStr "uniform") (VStr "identity") xs ;;
        ok (VDist d)
      else ok dist.

Definition normalise_sub_grid (h : heap) (sub_grid : val) : result (list val) :=
  xs <-? read_items h sub_grid ;;
  mapR (normalise_dimension h) xs.

(** Whether [check_grid] takes [grid] for one flat sub-grid. *)
Definition flat (h : heap) (grid : val) : result bool :=
  g0 <-? (xs <-? read_items h grid ;; index xs 0) ;;
  if isinstance_Distribution g0 then ok true
  else if isinstance_Sequence h g0
       then g00 <-? (ys <-? read_items h g0 ;; index ys 0) ;;
            ok (isinstance_Number g00 || isinstance_str g00)
       else ok false.

Definition normalise (h : heap) (grid : val) : result (list (list val)) :=
  is_flat <-? flat h grid ;;
  sub_grids <-? (if is_flat : bool then ok [grid] else read_items h grid) ;;
  mapR (normalise_sub_grid h) sub_grids.

(** A value that is not a reference to a list that does not exist. *)
Definition valid (h : heap) (v : val) : Prop :=
  match v with
  | VList l => (l < length h)%nat
  | _ => True
  end.

(** The lists of a sub-grid exist: the sub-grid and its specs. *)
Definition valid_sub_grid (h : heap) (sub_grid : val) : Prop :=
  valid h sub_grid
  /\ forall ys, items h sub_grid = Some ys -> Forall (valid h) ys.

(** The lists a grid is made of exist: the grid, its elements, and the
    elements of these. *)
Definition wf_grid (h : heap) (grid : val) : Prop :=
  valid h grid
  /\ forall xs, items h grid = Some xs -> Forall (valid_sub_grid h) xs.

(** The store while the outer loop runs: [base] is the store when the loop
    starts, where the list [g] is empty; [rows] are the rows built so far,
    each in a list of its own, recorded in [g] in order. *)
Definition grid_store (base : heap) (g : loc) (rows : list (list val)) : heap :=
  <[g := VList <$> seq (length base) (length rows)]> (base ++ rows).

(** A check of [wf_grid] that computes. *)
Definition validb (h : heap) (v : val) : bool :=
  match v with
  | VList l => (l <? length h)%nat
  | _ => true
  end.

Definition well_formed (h : heap) (grid : val) : bool :=
  validb h grid
  && match items h grid with
     | None => true
     | Some xs =>
         forallb (fun sg =>
                    validb h sg
                    && match items h sg with
                       | None => true
                       | Some ys => forallb (validb h) ys
                       end) xs
     end.

Section SampleRow.
Context `{SciPy}.

(** One point drawn from the rows of a normalised grid. *)
Definition sample_row (rows : list (list val)) (rng : rng_ref) : ST rngs val :=
  k <- with_rng rng (RandomState_randint 0 (Z.of_nat (length rows))) ;;
  dists <- lift (index rows k) ;;
  params <- mapST (fun dist =>
              if tuple_lt sp_version [0; 16]%Z
              then call_rvs dist VNone VNone
              else call_rvs dist VNone (VRandomState rng)) dists ;;
  ret (VTuple params).

End SampleRow.

(** A grid of one sub-grid of two dimensions, each
    [Categorical("a", "b", transformer=Identity())], in a store, and the toy
    library at two versions. *)
Definition two_labels : val :=
  VDist (Categorical [VStr "a"; VStr "b"] Identity
           (rv_discrete [0; 1]%Z (VArray [VFloat 0.5; VFloat 0.5]))).

Definition two_labels_store : heap := [[VList 1]; [two_labels; two_labels]].

Definition scipy_0_15 : SciPy := Toy.scipy [0; 15; 1]%Z.
Definition scipy_0_17 : SciPy := Toy.scipy [0; 17; 0]%Z.

(** ** Accepted arguments, grids of bounds, points and generators *)

(** The [transformer] arguments [Real] accepts, and those [Integer]
    accepts. *)
Definition Real_accepts (t : val) : bool :=
  eq_str t "identity" || eq_str t "log" || eq_str t "log10"
  || match t with
     | VTransformer _ => true
     | _ => false
     end.

Definition Integer_accepts (t : val) : bool :=
  eq_str t "identity"
  || match t with
     | VTransformer _ => true
     | _ => false
     end.

(** A numpy array.  The constructors compare their [transformer] argument
    with string literals, which for an array is an element-wise comparison
    whose outcome depends on numpy's version. *)
Definition is_array (v : val) : bool :=
  match v with
  | VArray _ => true
  | _ => false
  end.

(** A category that [np.asarray] takes for one element of the array it
    builds: a string, a number or [None], not a sequence. *)
Definition scalar_category (v : val) : bool :=
  match v with
  | VNone | VBool _ | VInt _ | VFloat _ | VStr _ => true
  | _ => false
  end.

(** An index numpy accepts for an array of [n] elements. *)
Definition index_in_range (n : nat) (c : val) : Prop :=
  match c with
  | VInt k => (- Z.of_nat n <= k < Z.of_nat n)%Z
  | _ => False
  end.

(** [v] is the category that the index [c] selects: the one at position
    [c], counted from the end when [c] is negative. *)
Definition category_at (cats : list val) (c v : val) : Prop :=
  match c with
  | VInt k =>
      cats !! Z.to_nat (if (k <? 0)%Z then k + Z.of_nat (length cats) else k)
      = Some v
  | _ => False
  end.

(** A spec of two numbers of the same kind, and the dimension it stands
    for. *)
Inductive bounds : Type :=
| IntBounds (low high : Z)
| RealBounds (low high : float).

Definition spec_of (b : bounds) : val :=
  match b with
  | IntBounds low high => VTuple [VInt low; VInt high]
  | RealBounds low high => VTuple [VFloat low; VFloat high]
  end.

Definition dimension_of (b : bounds) : val :=
  match b with
  | IntBounds low high =>
      VDist (Integer (VInt low) (VInt high) Identity
               (randint (VInt low) (VInt high)))
  | RealBounds low high =>
      VDist (Real (VFloat low) (VFloat high) Identity
               (uniform (VFloat low) (VFloat (high - low)%float)))
  end.

Definition sub_grid_of (row : list bounds) : val := VTuple (spec_of <$> row).

Definition row_of (row : list bounds) : list val := dimension_of <$> row.

(** An entry of a normalised row, next to the spec it comes from: the spec
    itself, untouched, or a Distribution built from a spec that was not
    one. *)
Definition entry_of (spec entry : val) : Prop :=
  entry = spec
  \/ (isinstance_Distribution spec = false
      /\ isinstance_Distribution entry = true).

(** An entry that a second normalisation leaves alone, and that the flat
    test does not take for the start of a spec. *)
Definition settled (h : heap) (e : val) : Prop :=
  normalise_dimension h e = ok e
  /\ isinstance_Number e || isinstance_str e = false.

(** A point: a tuple with one entry for each dimension of a row. *)
Definition point_of (rows : list (list val)) (v : val) : Prop :=
  exists ps row, v = VTuple ps /\ row ∈ rows /\ length ps = length row.

(** A row whose first dimension is a [Real] or an [Integer]. *)
Definition bounded_dimension (v : val) : Prop :=
  match v with
  | VDist (Real _ _ _ _) | VDist (Integer _ _ _ _) => True
  | _ => False
  end.

Definition starts_bounded (row : list val) : Prop :=
  match row with
  | d :: _ => bounded_dimension d
  | [] => False
  end.

(** A property of the generators that a computation keeps. *)
Definition preserves `{SciPy} (I : rngs -> Prop) {A} (c : ST rngs A) : Prop :=
  forall w, I w -> I (fst (c w)).

(** Since the state [w0] one generator was created, and nothing else has
    moved. *)
Definition own_generator `{SciPy} (w0 w : rngs) : Prop :=
  np_random w = np_random w0
  /\ exists st, instances w = instances w0 ++ [st].

(** The flat grid [[(1, 2)]] and the store after [check_grid] has normalised
    it from an empty store; the store after it has normalised the grid of
    [two_labels_store]. *)
Definition one_int_grid : val := VTuple [VTuple [VInt 1; VInt 2]].

Definition one_int_dimension : val :=
  VDist (Integer (VInt 1) (VInt 2) Identity (randint (VInt 1) (VInt 2))).

Definition one_int_store : heap :=
  [[one_int_grid]; [VList 2]; [one_int_dimension]].

Definition two_labels_normalised : heap :=
  two_labels_store ++ [[VList 3]; [two_labels; two_labels]].

(** * Properties *)

(** ** Sampling from one dimension *)

Section RvsProperties.
Context `{SciPy}.

Lemma clipped_rvs_outcome (r : rv) (n_samples random_state : val) (w : rngs) :
  snd (Real_rvs r n_samples random_state w) =
    match snd (scipy_rvs r n_samples random_state w) with
    | inl e => inl e
    | inr _ => inl (NameError "low")
    end
  /\ Integer_rvs r n_samples random_state w = Real_rvs r n_samples random_state w.
Proof.
  split; [|reflexivity].
  unfold Real_rvs, bind.
  destruct (scipy_rvs r n_samples random_state w) as [w' [e|v]]; reflexivity.
Qed.

(** C1: what [rvs] of a Real and of an Integer dimension gives, for every
    bounds, prior, transformer, sample count, random state and generator
    states: the exception of the prior's draw when it raises one, and
    otherwise NameError for the name [low] that the call of [np.clip]
    reads.  No value is returned, clamped or not. *)
Theorem Real_Integer_rvs_NameError (low high : val) (t : Transformer)
    (r : rv) (n_samples random_state : val) (w : rngs) :
  let drawn := snd (scipy_rvs r n_samples random_state w) in
  let outcome := match drawn with
                 | inl e => inl e
                 | inr _ => inl (NameError "low")
                 end in
  snd (rvs (Real low high t r) n_samples random_state w) = outcome
  /\ snd (rvs (Integer low high t r) n_samples random_state w) = outcome.
Proof.
  cbn zeta. simpl rvs.
  destruct (clipped_rvs_outcome r n_samples random_state w) as [HR HI].
  rewrite HI. split; exact HR.
Qed.

(** C9: an Integer dimension built with the default prior holds
    [randint(low, high)], and its [rvs] raises for every sample count,
    random state and generator states: it returns no value at all, below
    [high] or not. *)
Theorem Integer_uniform_rvs_raises (low high : Z)
    (n_samples random_state : val) (w : rngs) :
  let d := Integer (VInt low) (VInt high) Identity
             (randint (VInt low) (VInt high)) in
  Integer_ (VInt low) (VInt high) = ok d
  /\ raises (snd (rvs d n_samples random_state w)).
Proof.
  cbn zeta. split; [reflexivity|].
  simpl rvs.
  destruct (clipped_rvs_outcome (randint (VInt low) (VInt high))
              n_samples random_state w) as [HR HI].
  rewrite HI, HR.
  destruct (snd (scipy_rvs _ n_samples random_state w)); exact I.
Qed.

End RvsProperties.

(** [Real(0.0, 1.0).rvs(random_state=0)] and [Integer(0, 10).rvs()] on the
    toy generator. *)
Example Real_rvs_example :
  snd (@rvs (Toy.scipy [0; 17]%Z)
         (Real (VFloat 0) (VFloat 1) Identity (uniform (VFloat 0) (VFloat 1)))
         VNone (VInt 0) (@mk_rngs (Toy.scipy [0; 17]%Z) 0%Z []))
  = raise (NameError "low").
Proof. reflexivity. Qed.

Example Integer_rvs_example :
  snd (@rvs (Toy.scipy [0; 17]%Z)
         (Integer (VInt 0) (VInt 10) Identity (randint (VInt 0) (VInt 10)))
         VNone VNone (@mk_rngs (Toy.scipy [0; 17]%Z) 7%Z []))
  = raise (NameError "low").
Proof. reflexivity. Qed.

(** ** Construction *)

(** C2: [Categorical( *categories)] with the default transformer argument
    raises RuntimeError for every sequence of categories and every prior:
    the default is the string 'one-hot', which no branch of the constructor
    accepts, so no encoder is built or fitted. *)
Theorem Categorical_default_transformer_RuntimeError
    (categories_ : list val) (prior : val) :
  Categorical_init categories_ prior (VStr "one-hot")
    = raise (RuntimeError not_a_transformer (VStr "one-hot"))
  /\ Categorical_ categories_
    = raise (RuntimeError not_a_transformer (VStr "one-hot")).
Proof. split; reflexivity. Qed.

(** The spelling the constructor does accept reaches a name the module
    never binds. *)
Lemma Categorical_onehot_NameError (categories_ : list val) (prior : val) :
  Categorical_init categories_ prior (VStr "onehot")
    = raise (NameError "CategoryTransform").
Proof. reflexivity. Qed.

(** C4: with the default transformer, [Real(low, high, prior=p)] and
    [Integer(low, high, prior=p)] for a prior that is neither 'uniform' nor
    a frozen variate raise AttributeError: the message of the ValueError
    reads [self._rvs], which is not assigned yet. *)
Theorem invalid_prior_AttributeError (low high p : val) :
  valid_prior p = false ->
  Real_init low high p (VStr "identity") = raise (AttributeError "_rvs")
  /\ Integer_init low high p (VStr "identity") = raise (AttributeError "_rvs").
Proof.
  unfold valid_prior. intros Hp.
  apply orb_false_iff in Hp as [Hu Hf].
  unfold Real_init, Integer_init. simpl. rewrite Hu.
  destruct p; try (split; reflexivity).
  rewrite Hf. split; reflexivity.
Qed.

Lemma invalid_prior_AttributeError_witness :
  Real_init (VFloat 0) (VFloat 1) (VStr "normal") (VStr "identity")
    = raise (AttributeError "_rvs")
  /\ Integer_init (VFloat 0) (VFloat 1) (VStr "normal") (VStr "identity")
    = raise (AttributeError "_rvs").
Proof. apply (invalid_prior_AttributeError _ _ (VStr "normal")). reflexivity. Defined.


(** ** Normalisation of one spec *)

(** Running monadic code by hand: unfold the combinators, compute, and use
    the facts at hand. *)
Ltac mrun tac :=
  repeat (progress (unfold bind, len, getitem, iterate, lift, ret, throw,
                      ok, raise, rbind; cbn beta iota zeta; tac)).

Lemma index_head {A} (x : A) (xs : list A) : index (x :: xs) 0 = ok x.
Proof.
  unfold index. cbn [Z.ltb Z.compare length]. rewrite Nat2Z.inj_succ.
  destruct (0 <? Z.succ (Z.of_nat (length xs)))%Z eqn:E; [reflexivity|].
  apply Z.ltb_ge in E. lia.
Qed.

Lemma index_nil {A} (i : Z) : index (@nil A) i = raise IndexError.
Proof.
  unfold index.
  destruct (_ && _)%bool; [|reflexivity].
  rewrite lookup_nil. reflexivity.
Qed.

Section CheckDimension.
Variables (h : heap) (sub_grid_ : val) (i : nat) (dist : val).

(** A Distribution is left as it is. *)
Lemma check_dimension_Distribution (d : Distribution) :
  check_dimension sub_grid_ i (VDist d) h = (h, ok tt).
Proof. reflexivity. Qed.

(** A spec of more than two elements, or one that starts with a string,
    reaches [Categorical( *dist)], whose default transformer is refused. *)
Lemma check_dimension_categorical (xs : list val) :
  isinstance_Distribution dist = false ->
  items h dist = Some xs ->
  ((2 < length xs)%nat \/ (exists x, xs !! 0%nat = Some x /\ isinstance_str x = true)) ->
  check_dimension sub_grid_ i dist h
    = (h, raise (RuntimeError not_a_transformer (VStr "one-hot"))).
Proof.
  intros Hd Hxs Hcat. unfold check_dimension. rewrite Hd.
  destruct (2 <? length xs)%nat eqn:Hlen.
  - mrun ltac:(rewrite ?Hxs, ?Hlen). reflexivity.
  - apply Nat.ltb_ge in Hlen.
    destruct Hcat as [Hlt | (x & Hx & Hstr)]; [lia|].
    destruct xs as [|x' xs']; [discriminate|].
    simpl in Hx. injection Hx as ->.
    apply Nat.ltb_ge in Hlen.
    mrun ltac:(rewrite ?Hxs, ?Hlen, ?Hstr; unfold index; simpl).
    reflexivity.
Qed.

(** A spec of two elements that starts with an integer becomes
    [Integer(low, high)], when [high - 1] can be computed: the test for
    Integral comes before the test for Real. *)
Lemma check_dimension_Integer (low high m : val) (l : loc) (xs : list val) :
  items h dist = Some [low; high] ->
  isinstance_Integral low = true ->
  minus_one high = ok m ->
  sub_grid_ = VList l ->
  h !! l = Some xs ->
  (i < length xs)%nat ->
  check_dimension sub_grid_ i dist h
    = (<[l := <[i := VDist (Integer low high Identity (randint low high))]> xs]> h,
       ok tt).
Proof.
  intros Hxs Hint Hm -> Hl Hi. unfold check_dimension.
  assert (isinstance_Distribution dist = false) as ->
    by (destruct dist; try reflexivity; discriminate).
  assert (isinstance_str low = false) as Hstr
    by (destruct low; try reflexivity; discriminate).
  mrun ltac:(rewrite ?Hxs, ?Hstr, ?Hint; unfold index; simpl).
  unfold Integer_init. simpl. rewrite Hm. simpl.
  unfold list_setitem. rewrite Hl.
  destruct (decide (i < length xs)%nat); [reflexivity|lia].
Qed.

(** A spec of two numbers that starts with a real that is not an integer
    becomes [Real(low, high)]. *)
Lemma check_dimension_Real (low : float) (high : val) (scale : val)
    (l : loc) (xs : list val) :
  items h dist = Some [VFloat low; high] ->
  sub (high) (VFloat low) = ok scale ->
  sub_grid_ = VList l ->
  h !! l = Some xs ->
  (i < length xs)%nat ->
  check_dimension sub_grid_ i dist h
    = (<[l := <[i := VDist (Real (VFloat low) high Identity
                              (uniform (VFloat low) scale))]> xs]> h,
       ok tt).
Proof.
  intros Hxs Hsub -> Hl Hi. unfold check_dimension.
  assert (isinstance_Distribution dist = false) as ->
    by (destruct dist; try reflexivity; discriminate).
  mrun ltac:(rewrite ?Hxs; unfold index; simpl).
  unfold Real_init. simpl. rewrite Hsub. simpl.
  unfold list_setitem. rewrite Hl.
  destruct (decide (i < length xs)%nat); [reflexivity|lia].
Qed.

(** A spec of at most two elements whose first element is neither a string
    nor a real number falls through every branch: nothing is assigned and
    nothing is raised. *)
Lemma check_dimension_unclassified (x : val) (xs : list val) :
  items h dist = Some (x :: xs) ->
  (length xs <= 1)%nat ->
  isinstance_str x = false ->
  isinstance_Real x = false ->
  check_dimension sub_grid_ i dist h = (h, ok tt).
Proof.
  intros Hxs Hlen Hstr Hreal. unfold check_dimension.
  assert (isinstance_Distribution dist = false) as ->
    by (destruct dist; try reflexivity; discriminate).
  assert (isinstance_Integral x = false) as Hint
    by (destruct x; try reflexivity; discriminate).
  assert ((2 <? length (x :: xs))%nat = false) as H2
    by (apply Nat.ltb_ge; simpl; lia).
  mrun ltac:(rewrite ?Hxs, ?H2, ?index_head, ?Hstr, ?Hint, ?Hreal).
  reflexivity.
Qed.

End CheckDimension.

(** ** Normalisation of a grid *)

(** Running a computation step by step. *)

Lemma bind_ok {S A B} (c : ST S A) (k : A -> ST S B) (h h1 : S) (a : A) :
  c h = (h1, inr a) -> bind c k h = k a h1.
Proof. intros Hc. unfold bind. rewrite Hc. reflexivity. Qed.

Lemma bind_raise {S A B} (c : ST S A) (k : A -> ST S B) (h h1 : S) (e : exn) :
  c h = (h1, inl e) -> bind c k h = (h1, inl e).
Proof. intros Hc. unfold bind. rewrite Hc. reflexivity. Qed.

Lemma append_run (l : loc) (v : val) (h : heap) (xs : list val) :
  h !! l = Some xs -> append (VList l) v h = (<[l := xs ++ [v]]> h, ok tt).
Proof. intros Hl. simpl. unfold list_append. rewrite Hl. reflexivity. Qed.

Lemma for_enumerate_step (n i : nat) (lst : val) (body : nat -> val -> M unit)
    (h : heap) (x : val) :
  items h lst ≫= (.!! i) = Some x ->
  for_enumerate (S n) i lst body h
  = bind (body i x) (fun _ => for_enumerate n (S i) lst body) h.
Proof. intros Hx. simpl. rewrite Hx. reflexivity. Qed.

(** C3: for a nested grid [[(x, y)]] whose spec has two elements and a
    first element that is neither a string nor a number, [check_grid]
    raises nothing: the spec matches no branch of the chain of tests, which
    has no final [else], and the grid returned holds the raw tuple where a
    Distribution is expected. *)
Theorem check_grid_keeps_unclassifiable_spec (x y : val) (h : heap) :
  isinstance_str x = false ->
  isinstance_Real x = false ->
  let spec := VTuple [x; y] in
  let h' := h ++ [[VList (S (length h))]; [spec]] in
  check_grid (VTuple [VTuple [spec]]) h = (h', ok (VList (length h)))
  /\ read_grid h' (VList (length h)) = Some [[spec]].
Proof.
  intros Hstr Hreal spec h'.
  assert (h' !! length h = Some [VList (S (length h))]) as Hfst
    by (apply list_lookup_middle; reflexivity).
  assert (h' !! S (length h) = Some [spec]) as Hsnd.
  { unfold h'. rewrite (lookup_app_r h) by lia.
    replace (S (length h) - length h)%nat with 1%nat by lia. reflexivity. }
  assert (<[length h := [] ++ [VList (S (length h))]]> ((h ++ [[]]) ++ [[spec]]) = h') as Hh'.
  { unfold h'. rewrite <- app_assoc. rewrite insert_app_r_alt by lia.
    rewrite Nat.sub_diag. reflexivity. }
  split.
  - unfold check_grid.
    rewrite (bind_ok _ _ h h false) by reflexivity.
    rewrite (bind_ok _ _ h h (VTuple [VTuple [spec]])) by reflexivity.
    rewrite (bind_ok _ _ h (h ++ [[]]) (VList (length h))) by reflexivity.
    rewrite (bind_ok _ _ (h ++ [[]]) (h ++ [[]]) [VTuple [spec]]) by reflexivity.
    rewrite (bind_ok _ _ (h ++ [[]]) h' tt); [reflexivity|].
    cbn [for_each].
    rewrite (bind_ok _ _ (h ++ [[]]) h' tt); [reflexivity|].
    unfold check_sub_grid.
    rewrite (bind_ok _ _ (h ++ [[]]) (h ++ [[]]) [spec]) by reflexivity.
    rewrite (bind_ok _ _ (h ++ [[]]) ((h ++ [[]]) ++ [[spec]]) (VList (S (length h)))).
    2:{ unfold new_list. rewrite length_app, Nat.add_1_r. reflexivity. }
    rewrite (bind_ok _ _ _ h' tt).
    2:{ rewrite (append_run _ _ _ []); [rewrite Hh'; reflexivity|].
        rewrite <- app_assoc. apply list_lookup_middle. reflexivity. }
    cbn [length].
    rewrite (for_enumerate_step _ _ _ _ _ spec).
    2:{ cbn [items]. rewrite Hsnd. reflexivity. }
    rewrite (bind_ok _ _ h' h' tt); [reflexivity|].
    apply (check_dimension_unclassified h' _ 0%nat spec x [y]);
      [reflexivity|simpl; lia|exact Hstr|exact Hreal].
  - unfold read_grid. cbn [items]. rewrite Hfst. cbn [mbind option_bind mapM].
    cbn [items]. rewrite Hsnd. reflexivity.
Qed.

Lemma check_grid_keeps_unclassifiable_spec_witness :
  let spec := VTuple [VNone; VInt 5] in
  check_grid (VTuple [VTuple [spec]]) [] = ([[VList 1]; [spec]], ok (VList 0))
  /\ read_grid [[VList 1]; [spec]] (VList 0) = Some [[spec]].
Proof.
  apply (check_grid_keeps_unclassifiable_spec VNone (VInt 5) []); reflexivity.
Defined.

(** C5: for a flat grid [(x, ...)] whose only spec starts with a number or
    a string, and has more than two elements or starts with a string,
    [check_grid] raises RuntimeError: the spec is classified as categorical
    and handed to [Categorical( *spec)], whose default transformer the
    constructor refuses.  No normalised grid is returned. *)
Theorem check_grid_categorical_spec_RuntimeError (x : val) (xs : list val) (h : heap) :
  isinstance_Number x || isinstance_str x = true ->
  (2 <? length (x :: xs))%nat || isinstance_str x = true ->
  snd (check_grid (VTuple [VTuple (x :: xs)]) h)
  = raise (RuntimeError not_a_transformer (VStr "one-hot")).
Proof.
  intros Hflat Hcat.
  set (spec := VTuple (x :: xs)). set (grid := VTuple [spec]).
  set (h1 := h ++ [[grid]]). set (h2 := h1 ++ [[]]). set (h3 := h2 ++ [[spec]]).
  set (h4 := <[S (length h) := [] ++ [VList (S (S (length h)))]]> h3).
  assert (length h1 = S (length h)) as Hl1
    by (unfold h1; rewrite length_app, Nat.add_1_r; reflexivity).
  assert (length h2 = S (S (length h))) as Hl2
    by (unfold h2; rewrite length_app, Nat.add_1_r, Hl1; reflexivity).
  assert (is_flat grid h = (h, ok true)) as Hf.
  { unfold is_flat, grid, spec.
    mrun ltac:(cbn [items isinstance_Distribution isinstance_Sequence];
               rewrite ?index_head).
    rewrite Hflat. reflexivity. }
  unfold check_grid.
  rewrite (bind_ok _ _ h h true Hf).
  rewrite (bind_ok _ _ h h1 (VList (length h))) by reflexivity.
  rewrite (bind_ok _ _ h1 h2 (VList (S (length h))))
    by (unfold new_list; rewrite Hl1; reflexivity).
  rewrite (bind_ok _ _ h2 h2 [grid]).
  2:{ unfold iterate. cbn [items].
      replace (h2 !! length h) with (Some [grid]); [reflexivity|].
      symmetry. unfold h2. rewrite lookup_app_l by lia.
      apply list_lookup_middle. reflexivity. }
  erewrite bind_raise; [reflexivity|].
  cbn [for_each].
  erewrite bind_raise; [reflexivity|].
  unfold check_sub_grid.
  rewrite (bind_ok _ _ h2 h2 [spec]) by reflexivity.
  rewrite (bind_ok _ _ h2 h3 (VList (S (S (length h)))))
    by (unfold new_list; rewrite Hl2; reflexivity).
  rewrite (bind_ok _ _ h3 h4 tt).
  2:{ apply append_run. unfold h3. rewrite lookup_app_l by lia.
      apply list_lookup_middle. symmetry. exact Hl1. }
  assert (h4 !! S (S (length h)) = Some [spec]) as Hspec.
  { unfold h4. rewrite list_lookup_insert_ne by lia.
    unfold h3. apply list_lookup_middle. symmetry. exact Hl2. }
  cbn [length].
  rewrite (for_enumerate_step _ _ _ _ _ spec)
    by (cbn [items]; rewrite Hspec; reflexivity).
  erewrite bind_raise; [reflexivity|].
  apply (check_dimension_categorical h4 _ 0%nat spec (x :: xs));
    [reflexivity|reflexivity|].
  apply orb_true_iff in Hcat as [Hlen | Hstr].
  - left. apply Nat.ltb_lt. exact Hlen.
  - right. exists x. split; [reflexivity|exact Hstr].
Qed.

Lemma check_grid_categorical_spec_RuntimeError_witness :
  snd (check_grid (VTuple [VTuple [VStr "a"; VStr "b"; VStr "c"]]) [])
  = raise (RuntimeError not_a_transformer (VStr "one-hot")).
Proof.
  apply (check_grid_categorical_spec_RuntimeError (VStr "a")
           [VStr "b"; VStr "c"] []); reflexivity.
Defined.

(** The two other examples of normalisation: a flat list of an integer and a
    real spec is one sub-grid, a nested one is two. *)
Example check_grid_flat :
  let h := [[VTuple [VInt 1; VInt 2]; VTuple [VFloat 3; VFloat 5]]] in
  let '(h', r) := check_grid (VList 0) h in
  r = ok (VList 2)
  /\ read_grid h' (VList 2)
     = Some [[VDist (Integer (VInt 1) (VInt 2) Identity
                       (randint (VInt 1) (VInt 2)));
              VDist (Real (VFloat 3) (VFloat 5) Identity
                       (uniform (VFloat 3) (VFloat 2)))]].
Proof. split; reflexivity. Qed.

Example check_grid_nested :
  let h := [[VList 1; VList 2];
            [VTuple [VInt 1; VInt 2]];
            [VTuple [VFloat 3; VFloat 5]]] in
  let '(h', r) := check_grid (VList 0) h in
  r = ok (VList 3)
  /\ read_grid h' (VList 3)
     = Some [[VDist (Integer (VInt 1) (VInt 2) Identity
                       (randint (VInt 1) (VInt 2)))];
             [VDist (Real (VFloat 3) (VFloat 5) Identity
                       (uniform (VFloat 3) (VFloat 2)))]].
Proof. split; reflexivity. Qed.

Lemma is_flat_IndexError (h : heap) (grid : val) :
  empty_grid h grid \/ first_is_empty_sequence h grid ->
  is_flat grid h = (h, raise IndexError).
Proof.
  unfold is_flat.
  intros [He | (g0 & rest & Hg & Hseq & Hg0)].
  - mrun ltac:(rewrite ?He, ?index_nil). reflexivity.
  - assert (isinstance_Distribution g0 = false) as Hd
      by (destruct g0; try reflexivity; discriminate).
    mrun ltac:(rewrite ?Hg, ?index_head, ?Hd, ?Hseq, ?Hg0, ?index_nil).
    reflexivity.
Qed.

(** C10: on an empty grid, and on a grid whose first element is an empty
    sequence, [check_grid] raises IndexError before it allocates anything,
    and so does the first step of iterating [sample_points]. *)
Theorem check_grid_empty_IndexError `{SciPy} (h : heap) (grid : val)
    (n_points : Z) (random_state : val) (w : rngs) :
  empty_grid h grid \/ first_is_empty_sequence h grid ->
  check_grid grid h = (h, raise IndexError)
  /\ sample_points grid n_points random_state h w
     = (h, w, mk_generated [] (Some IndexError)).
Proof.
  intros Hg.
  assert (check_grid grid h = (h, raise IndexError)) as Hc.
  { unfold check_grid, bind. rewrite (is_flat_IndexError h grid Hg). reflexivity. }
  split; [exact Hc|].
  unfold sample_points. rewrite Hc. reflexivity.
Qed.

Lemma check_grid_empty_IndexError_witness :
  (empty_grid [[VTuple []]] (VList 0)
   \/ first_is_empty_sequence [[VTuple []]] (VList 0))
  /\ check_grid (VList 0) [[VTuple []]] = ([[VTuple []]], raise IndexError)
  /\ @sample_points (Toy.scipy [0; 17]%Z) (VList 0) 3 (VInt 42) [[VTuple []]]
       (@mk_rngs (Toy.scipy [0; 17]%Z) 0%Z [])
     = ([[VTuple []]], @mk_rngs (Toy.scipy [0; 17]%Z) 0%Z [],
        mk_generated [] (Some IndexError)).
Proof.
  assert (empty_grid [[VTuple []]] (VList 0)
          \/ first_is_empty_sequence [[VTuple []]] (VList 0)) as Hg.
  { right. exists (VTuple []), []. repeat split. }
  split; [exact Hg|].
  exact (@check_grid_empty_IndexError (Toy.scipy [0; 17]%Z) _ _ 3 (VInt 42)
           (@mk_rngs (Toy.scipy [0; 17]%Z) 0%Z []) Hg).
Defined.

(** ** The caller's lists across a call of check_grid *)

Lemma readonly_ret {A} (a : A) : readonly (ret a).
Proof. intros h. reflexivity. Qed.

Lemma readonly_throw {A} (e : exn) : readonly (@throw heap A e).
Proof. intros h. reflexivity. Qed.

Lemma readonly_lift {A} (r : result A) : readonly (lift r).
Proof. intros h. reflexivity. Qed.

Lemma readonly_getitem (v : val) (i : Z) : readonly (getitem v i).
Proof. intros h. unfold getitem. destruct (items h v); reflexivity. Qed.

Lemma readonly_len (v : val) : readonly (len v).
Proof. intros h. unfold len. destruct (items h v); reflexivity. Qed.

Lemma readonly_iterate (v : val) : readonly (iterate v).
Proof. intros h. unfold iterate. destruct (items h v); reflexivity. Qed.

Lemma readonly_bind {A B} (c : M A) (k : A -> M B) :
  readonly c -> (forall a, readonly (k a)) -> readonly (bind c k).
Proof.
  intros Hc Hk h. unfold bind. specialize (Hc h).
  destruct (c h) as [h' [e|a]]; simpl in *; subst; [reflexivity|apply Hk].
Qed.

Lemma readonly_is_flat (grid : val) : readonly (is_flat grid).
Proof.
  unfold is_flat.
  apply readonly_bind; [apply readonly_getitem|]. intros g0.
  destruct (isinstance_Distribution g0); [apply readonly_ret|].
  apply readonly_bind; [apply readonly_getitem|]. intros g0' h.
  destruct (isinstance_Sequence h g0'); [|reflexivity].
  revert h. change (readonly (g1 <- getitem grid 0 ;;
                              g00 <- getitem g1 0 ;;
                              ret (isinstance_Number g00 || isinstance_str g00))).
  repeat (apply readonly_bind; [apply readonly_getitem|intros ?]).
  apply readonly_ret.
Qed.

Section Frame.
Variable h0 : heap.

Lemma hoare_bind {A B} (P : heap -> Prop) (Q : A -> heap -> Prop)
    (R : B -> heap -> Prop) (c : M A) (k : A -> M B) :
  hoare h0 P c Q -> (forall a, hoare h0 (Q a) (k a) R) -> hoare h0 P (bind c k) R.
Proof.
  intros Hc Hk h HP. unfold bind.
  destruct (Hc h HP) as [Hpre HQ].
  destruct (c h) as [h1 [e|a]]; simpl in *.
  - split; [exact Hpre|discriminate].
  - apply (Hk a h1). apply HQ. reflexivity.
Qed.

Lemma hoare_readonly {A} (P : heap -> Prop) (c : M A) :
  readonly c ->
  (forall h, P h -> h0 `prefix_of` h) ->
  hoare h0 P c (fun _ => P).
Proof.
  intros Hc Hpre h HP. rewrite (Hc h). split; [apply Hpre, HP|]. intros; exact HP.
Qed.

(** *** The invariant of the outer loop *)

Lemma building_prefix (g : loc) (h : heap) : building h0 g h -> h0 `prefix_of` h.
Proof. intros [Hp _]. exact Hp. Qed.

Lemma prefix_insert (h : heap) (l : loc) (xs : list val) :
  h0 `prefix_of` h -> (length h0 <= l)%nat -> h0 `prefix_of` <[l := xs]> h.
Proof.
  intros [k ->] Hl. exists (<[(l - length h0)%nat := xs]> k).
  apply insert_app_r_alt. exact Hl.
Qed.

Lemma prefix_alloc (h : heap) (xs : list val) :
  h0 `prefix_of` h -> h0 `prefix_of` (h ++ [xs]).
Proof. intros Hp. etrans; [exact Hp|]. apply prefix_app_r. reflexivity. Qed.

Lemma building_insert (g s : loc) (h : heap) (xs : list val) :
  building h0 g h -> (length h0 <= s)%nat -> s <> g ->
  building h0 g (<[s := xs]> h).
Proof.
  intros (Hp & Hg & subs & Hsubs & Hfresh) Hs Hne.
  split; [apply prefix_insert; assumption|].
  split; [exact Hg|].
  exists subs. split; [|exact Hfresh].
  rewrite list_lookup_insert_ne; [exact Hsubs|exact Hne].
Qed.

Lemma building_alloc (g : loc) (h : heap) (xs : list val) :
  building h0 g h -> building h0 g (h ++ [xs]).
Proof.
  intros (Hp & Hg & subs & Hsubs & Hfresh).
  split; [apply prefix_alloc; exact Hp|].
  split; [exact Hg|].
  exists subs. split; [|exact Hfresh].
  apply lookup_app_l_Some. exact Hsubs.
Qed.

Lemma building_append (g : loc) (h : heap) (v : val) :
  building h0 g h -> fresh h0 v ->
  building h0 g (fst (list_append g v h)).
Proof.
  intros (Hp & Hg & subs & Hsubs & Hfresh) Hv.
  unfold list_append. rewrite Hsubs. simpl.
  split; [apply prefix_insert; assumption|].
  split; [exact Hg|].
  exists (subs ++ [v]). split.
  - apply list_lookup_insert_eq. apply lookup_lt_Some in Hsubs. exact Hsubs.
  - apply Forall_app. split; [exact Hfresh|]. constructor; [exact Hv|constructor].
Qed.

(** *** The inner loop *)

Lemma hoare_setitem (g s : loc) (i : nat) (x : val) :
  (length h0 <= s)%nat -> s <> g ->
  hoare h0 (building h0 g) (setitem (VList s) i x) (fun _ => building h0 g).
Proof.
  intros Hs Hne h Hb. simpl. unfold list_setitem.
  destruct (h !! s) as [xs|]; simpl.
  - destruct (decide (i < length xs)%nat); simpl.
    + split; [apply prefix_insert; [apply building_prefix with g|]; assumption|].
      intros _ _. apply building_insert; assumption.
    + split; [apply building_prefix with g; exact Hb|discriminate].
  - split; [apply building_prefix with g; exact Hb|discriminate].
Qed.

Lemma hoare_check_dimension (g s : loc) (i : nat) (dist : val) :
  (length h0 <= s)%nat -> s <> g ->
  hoare h0 (building h0 g) (check_dimension (VList s) i dist) (fun _ => building h0 g).
Proof.
  intros Hs Hne. unfold check_dimension.
  pose proof (building_prefix g) as Hpre.
  assert (forall {A} (c : M A), readonly c ->
            hoare h0 (building h0 g) c (fun _ => building h0 g)) as Hro
    by (intros A c Hc; apply hoare_readonly; assumption).
  assert (forall d, hoare h0 (building h0 g) (setitem (VList s) i (VDist d))
                      (fun _ => building h0 g)) as Hset
    by (intros d; apply hoare_setitem; assumption).
  destruct (isinstance_Distribution dist); [apply Hro, readonly_ret|].
  eapply hoare_bind; [apply Hro, readonly_len|]. intros n. cbn beta.
  eapply hoare_bind.
  { apply Hro. destruct (2 <? n)%nat; [apply readonly_ret|].
    apply readonly_bind; [apply readonly_getitem|intros ?; apply readonly_ret]. }
  intros [|]; cbn beta.
  - eapply hoare_bind; [apply Hro, readonly_iterate|]. intros args. cbn beta.
    eapply hoare_bind; [apply Hro, readonly_lift|]. intros d. apply Hset.
  - eapply hoare_bind; [apply Hro, readonly_getitem|]. intros d0. cbn beta.
    destruct (isinstance_Integral d0).
    + eapply hoare_bind; [apply Hro, readonly_iterate|]. intros args. cbn beta.
      eapply hoare_bind; [apply Hro, readonly_lift|]. intros d. apply Hset.
    + eapply hoare_bind; [apply Hro, readonly_getitem|]. intros d0'. cbn beta.
      destruct (isinstance_Real d0'); [|apply Hro, readonly_ret].
      eapply hoare_bind; [apply Hro, readonly_iterate|]. intros args. cbn beta.
      eapply hoare_bind; [apply Hro, readonly_lift|]. intros d. apply Hset.
Qed.

Lemma hoare_for_enumerate (I : heap -> Prop) (n i : nat) (lst : val)
    (body : nat -> val -> M unit) :
  (forall h, I h -> h0 `prefix_of` h) ->
  (forall j x, hoare h0 I (body j x) (fun _ => I)) ->
  hoare h0 I (for_enumerate n i lst body) (fun _ => I).
Proof.
  intros Hpre Hbody. revert i.
  induction n as [|n IH]; intros i.
  - apply hoare_readonly; [apply readonly_ret|exact Hpre].
  - intros h HI. simpl.
    destruct (items h lst ≫= (.!! i)) as [x|].
    + apply (hoare_bind I (fun _ => I) (fun _ => I)); [apply Hbody| |exact HI].
      intros _. apply IH.
    + simpl. split; [apply Hpre, HI|]. intros; exact HI.
Qed.

Lemma hoare_for_each {X} (I : heap -> Prop) (xs : list X)
    (body : X -> M unit) :
  (forall h, I h -> h0 `prefix_of` h) ->
  (forall x, hoare h0 I (body x) (fun _ => I)) ->
  hoare h0 I (for_each xs body) (fun _ => I).
Proof.
  intros Hpre Hbody.
  induction xs as [|x xs IH].
  - apply hoare_readonly; [apply readonly_ret|exact Hpre].
  - simpl. apply (hoare_bind I (fun _ => I) (fun _ => I)); [apply Hbody|].
    intros _. exact IH.
Qed.

(** *** Allocation *)

Lemma hoare_new_list_sub (g : loc) (xs : list val) :
  hoare h0 (building h0 g) (new_list xs)
    (fun v h => exists s, v = VList s /\ (length h0 <= s)%nat /\ s <> g
                          /\ building h0 g h).
Proof.
  intros h Hb. simpl.
  split; [apply prefix_alloc, building_prefix with g, Hb|].
  intros a [= <-]. exists (length h).
  pose proof Hb as (Hp & Hg & subs & Hsubs & Hfresh).
  apply lookup_lt_Some in Hsubs.
  apply prefix_length in Hp.
  split; [reflexivity|]. split; [exact Hp|]. split; [lia|].
  apply building_alloc, Hb.
Qed.

(** *** The loops and the function *)

Lemma hoare_append (g s : loc) :
  (length h0 <= s)%nat ->
  hoare h0 (building h0 g) (append (VList g) (VList s)) (fun _ => building h0 g).
Proof.
  intros Hs h Hb. simpl.
  assert (building h0 g (fst (list_append g (VList s) h))) as Hb'
    by (apply building_append; [exact Hb|exists s; split; [reflexivity|exact Hs]]).
  split; [apply building_prefix with g, Hb'|]. intros _ _. exact Hb'.
Qed.

Lemma hoare_sub_grid (g : loc) (sub_grid : val) :
  hoare h0 (building h0 g) (check_sub_grid (VList g) sub_grid)
    (fun _ => building h0 g).
Proof.
  unfold check_sub_grid.
  pose proof (building_prefix g) as Hpre.
  eapply hoare_bind; [apply hoare_readonly; [apply readonly_iterate|exact Hpre]|].
  intros xs. cbn beta.
  eapply hoare_bind; [apply hoare_new_list_sub|].
  intros sub_grid_. cbn beta.
  intros h (s & -> & Hs & Hne & Hb). revert h Hb.
  change (hoare h0 (building h0 g)
            (_ <- append (VList g) (VList s) ;;
             for_enumerate (length xs) 0 (VList s) (check_dimension (VList s)))
            (fun _ => building h0 g)).
  apply (hoare_bind _ (fun _ => building h0 g)); [apply hoare_append, Hs|].
  intros _. apply hoare_for_enumerate; [exact Hpre|].
  intros j x. apply hoare_check_dimension; assumption.
Qed.

Lemma hoare_check_grid (grid : val) :
  hoare h0 (fun h => h0 `prefix_of` h) (check_grid grid)
    (fun v h => exists g, v = VList g /\ building h0 g h).
Proof.
  unfold check_grid.
  eapply hoare_bind; [apply hoare_readonly; [apply readonly_is_flat|auto]|].
  intros flat. cbn beta.
  apply (hoare_bind _ (fun _ h => h0 `prefix_of` h)).
  { destruct flat.
    - intros h Hp. simpl. split; [apply prefix_alloc, Hp|].
      intros _ _. apply prefix_alloc, Hp.
    - intros h Hp. simpl. split; [exact Hp|]. intros _ _. exact Hp. }
  intros grid'.
  apply (hoare_bind _ (fun v h => exists g, v = VList g /\ building h0 g h)).
  { intros h Hp. simpl. split; [apply prefix_alloc, Hp|].
    intros v [= <-]. exists (length h). split; [reflexivity|].
    split; [apply prefix_alloc, Hp|].
    split; [apply prefix_length, Hp|].
    exists []. split; [|constructor].
    rewrite lookup_app_r by reflexivity. rewrite Nat.sub_diag. reflexivity. }
  intros grid_ h (g & -> & Hb). revert h Hb.
  change (hoare h0 (building h0 g)
            (sub_grids <- iterate grid' ;;
             _ <- for_each sub_grids (check_sub_grid (VList g)) ;;
             ret (VList g))
            (fun v h => exists g, v = VList g /\ building h0 g h)).
  eapply hoare_bind;
    [apply hoare_readonly; [apply readonly_iterate|apply building_prefix]|].
  intros sub_grids. cbn beta.
  apply (hoare_bind _ (fun _ => building h0 g)).
  { apply hoare_for_each; [apply building_prefix|].
    intros sub_grid. apply hoare_sub_grid. }
  intros _ h Hb. simpl. split; [apply building_prefix with g, Hb|].
  intros v [= <-]. exists g. split; [reflexivity|exact Hb].
Qed.

End Frame.

(** C8: whatever the grid and the store, [check_grid] leaves every list the
    caller holds as it was, whether it returns or raises: the store after
    the call is the store before it followed by the lists created during
    the call.  The grid it returns is one of these new lists, and so is
    each of its sub-grids. *)
Theorem check_grid_leaves_input_unchanged (grid : val) (h : heap) :
  exists created : heap,
    fst (check_grid grid h) = h ++ created
    /\ match snd (check_grid grid h) with
       | inl _ => True
       | inr grid_ =>
           exists g sub_grids,
             grid_ = VList g
             /\ (length h <= g)%nat
             /\ fst (check_grid grid h) !! g = Some sub_grids
             /\ Forall (fresh h) sub_grids
       end.
Proof.
  destruct (hoare_check_grid h grid h) as [[created Hc] Hret]; [reflexivity|].
  exists created. split; [exact Hc|].
  destruct (snd (check_grid grid h)) as [e|grid_]; [exact I|].
  destruct (Hret grid_ eq_refl) as (g & -> & _ & Hg & subs & Hsubs & Hfresh).
  exists g, subs. auto.
Qed.

(** A list of the caller reads the same before and after the call. *)
Corollary check_grid_caller_lists (grid : val) (h : heap) (l : loc)
    (xs : list val) :
  h !! l = Some xs -> fst (check_grid grid h) !! l = Some xs.
Proof.
  intros Hl. destruct (hoare_check_grid h grid h) as [[created ->] _];
    [reflexivity|].
  apply lookup_app_l_Some, Hl.
Qed.

(** ** What check_grid computes *)

Lemma iterate_read (v : val) (h : heap) : iterate v h = (h, read_items h v).
Proof. unfold iterate, read_items. destruct (items h v); reflexivity. Qed.

Lemma len_read (v : val) (h : heap) :
  len v h = (h, xs <-? read_items h v ;; ok (length xs)).
Proof. unfold len, read_items. destruct (items h v); reflexivity. Qed.

Lemma getitem_read (v : val) (i : Z) (h : heap) :
  getitem v i h = (h, xs <-? read_items h v ;; index xs i).
Proof. unfold getitem, read_items. destruct (items h v); reflexivity. Qed.

Lemma is_flat_read (grid : val) (h : heap) : is_flat grid h = (h, flat h grid).
Proof.
  unfold is_flat, flat, bind. rewrite getitem_read.
  destruct (xs <-? read_items h grid ;; index xs 0) as [e|g0] eqn:Hg0;
    [reflexivity|].
  cbn [rbind].
  destruct (isinstance_Distribution g0); [reflexivity|].
  rewrite getitem_read, Hg0.
  destruct (isinstance_Sequence h g0); [|reflexivity].
  rewrite getitem_read, Hg0, getitem_read.
  destruct (ys <-? read_items h g0 ;; index ys 0) as [e|g00]; reflexivity.
Qed.

(** One step of the inner loop writes the normalised entry, or raises what
    the normalisation raises. *)
Lemma check_dimension_run (h : heap) (s : loc) (i : nat) (dist : val)
    (cell : list val) :
  h !! s = Some cell ->
  cell !! i = Some dist ->
  check_dimension (VList s) i dist h
  = match normalise_dimension h dist with
    | inl e => (h, inl e)
    | inr v => (<[s := <[i := v]> cell]> h, ok tt)
    end.
Proof.
  intros Hs Hi.
  assert (<[s := <[i := dist]> cell]> h = h) as Hid
    by (rewrite (list_insert_id cell i dist Hi); apply list_insert_id, Hs).
  assert (forall d, setitem (VList s) i (VDist d) h
                    = (<[s := <[i := VDist d]> cell]> h, ok tt)) as Hset.
  { intros d. simpl. unfold list_setitem. rewrite Hs.
    apply lookup_lt_Some in Hi.
    destruct (decide (i < length cell)%nat); [reflexivity|lia]. }
  unfold check_dimension, normalise_dimension.
  destruct (isinstance_Distribution dist);
    [unfold ok, ret; cbn iota; rewrite Hid; reflexivity|].
  unfold bind. rewrite len_read.
  destruct (read_items h dist) as [e|xs] eqn:Hxs; [reflexivity|].
  cbn [rbind ok].
  destruct (2 <? length xs)%nat.
  - cbn [ret rbind ok]. rewrite iterate_read, Hxs. unfold lift.
    destruct (Categorical_ xs) as [e|d]; [reflexivity|]. apply Hset.
  - rewrite getitem_read, Hxs. cbn [rbind ok].
    destruct (index xs 0) as [e|d0] eqn:Hd0; [reflexivity|]. cbn [ret rbind ok].
    destruct (isinstance_str d0).
    + rewrite iterate_read, Hxs. unfold lift.
      destruct (Categorical_ xs) as [e|d]; [reflexivity|]. apply Hset.
    + rewrite getitem_read, Hxs. cbn [rbind ok]. rewrite Hd0.
      destruct (isinstance_Integral d0).
      * rewrite iterate_read, Hxs. unfold lift.
        destruct (apply_init Integer_init _ _ xs) as [e|d]; [reflexivity|].
        apply Hset.
      * rewrite getitem_read, Hxs. cbn [rbind ok]. rewrite Hd0.
        destruct (isinstance_Real d0);
          [|unfold ok, ret; cbn iota; rewrite Hid; reflexivity].
        rewrite iterate_read, Hxs. unfold lift.
        destruct (apply_init Real_init _ _ xs) as [e|d]; [reflexivity|].
        apply Hset.
Qed.

Section Stable.
Variables (h0 h : heap).
Hypothesis extends : h0 `prefix_of` h.

Lemma items_stable (v : val) : valid h0 v -> items h v = items h0 v.
Proof.
  destruct extends as [k ->].
  destruct v; try reflexivity. simpl. intros Hl. apply lookup_app_l, Hl.
Qed.

Lemma read_items_stable (v : val) :
  valid h0 v -> read_items h v = read_items h0 v.
Proof. intros Hv. unfold read_items. rewrite items_stable by exact Hv. reflexivity. Qed.

Lemma isinstance_Sequence_stable (v : val) :
  valid h0 v -> isinstance_Sequence h v = isinstance_Sequence h0 v.
Proof.
  intros Hv. destruct v; try reflexivity. simpl.
  pose proof (items_stable (VList l) Hv) as Hi. simpl in Hi. rewrite Hi.
  reflexivity.
Qed.

Lemma normalise_dimension_stable (dist : val) :
  valid h0 dist -> normalise_dimension h dist = normalise_dimension h0 dist.
Proof.
  intros Hv. unfold normalise_dimension.
  rewrite read_items_stable by exact Hv. reflexivity.
Qed.

Lemma mapR_normalise_dimension_stable (xs : list val) :
  Forall (valid h0) xs ->
  mapR (normalise_dimension h) xs = mapR (normalise_dimension h0) xs.
Proof.
  induction 1 as [|x xs Hx _ IH]; [reflexivity|].
  simpl. rewrite normalise_dimension_stable by exact Hx. rewrite IH. reflexivity.
Qed.

End Stable.

Lemma valid_extend (h0 h : heap) (v : val) :
  h0 `prefix_of` h -> valid h0 v -> valid h v.
Proof.
  intros Hp. destruct v; try (intros; exact I). simpl.
  apply prefix_length in Hp. lia.
Qed.

(** The inner loop on the copy [s] of a sub-grid: the entries [done] are
    normalised, the specs [todo] are still raw. *)
Lemma for_enumerate_run (h0 : heap) (s : loc) (todo : list val) :
  forall (done : list val) (h : heap),
    h0 `prefix_of` h ->
    (length h0 <= s)%nat ->
    h !! s = Some (done ++ todo) ->
    Forall (valid h0) todo ->
    exists cell,
      fst (for_enumerate (length todo) (length done) (VList s)
             (check_dimension (VList s)) h) = <[s := cell]> h
      /\ match mapR (normalise_dimension h0) todo with
         | inl e =>
             snd (for_enumerate (length todo) (length done) (VList s)
                    (check_dimension (VList s)) h) = inl e
         | inr vs =>
             snd (for_enumerate (length todo) (length done) (VList s)
                    (check_dimension (VList s)) h) = ok tt
             /\ cell = done ++ vs
         end.
Proof.
  induction todo as [|x todo IH]; intros done h Hp Hge Hs Hv.
  - exists done. simpl. rewrite app_nil_r in *.
    split; [symmetry; apply list_insert_id, Hs|]. split; reflexivity.
  - inversion Hv as [|? ? Hx Hv']; subst.
    assert ((done ++ x :: todo) !! length done = Some x) as Hx'
      by (apply list_lookup_middle; reflexivity).
    cbn [length].
    rewrite (for_enumerate_step _ _ _ _ _ x)
      by (cbn [items]; rewrite Hs; exact Hx').
    unfold bind.
    rewrite (check_dimension_run h s (length done) x _ Hs Hx').
    rewrite (normalise_dimension_stable h0 h Hp x Hx).
    cbn [mapR].
    destruct (normalise_dimension h0 x) as [e|v].
    + exists (done ++ x :: todo). simpl.
      split; [symmetry; apply list_insert_id, Hs|reflexivity].
    + unfold ok. cbn beta iota.
      set (h1 := <[s := <[length done := v]> (done ++ x :: todo)]> h).
      assert (s < length h)%nat as Hlt by (eapply lookup_lt_Some; exact Hs).
      assert (h0 `prefix_of` h1) as Hp1 by (apply prefix_insert; assumption).
      assert (<[length done := v]> (done ++ x :: todo) = (done ++ [v]) ++ todo)
        as Hcell.
      { rewrite insert_app_r_alt by lia. rewrite Nat.sub_diag.
        rewrite <- app_assoc. reflexivity. }
      assert (h1 !! s = Some ((done ++ [v]) ++ todo)) as Hs1
        by (unfold h1; rewrite Hcell; apply list_lookup_insert_eq, Hlt).
      destruct (IH (done ++ [v]) h1 Hp1 Hge Hs1 Hv') as (cell & Hfst & Hsnd).
      rewrite length_app, Nat.add_1_r in Hfst, Hsnd.
      exists cell. split.
      * rewrite Hfst. unfold h1. apply list_insert_insert_eq.
      * cbn [rbind].
        destruct (mapR (normalise_dimension h0) todo) as [e|vs]; [exact Hsnd|].
        destruct Hsnd as [Hr ->]. split; [exact Hr|].
        rewrite <- app_assoc. reflexivity.
Qed.

(** One pass of the outer loop: a new list with the normalised row, whose
    reference is appended to [g]. *)
Lemma check_sub_grid_run (h0 : heap) (g : loc) (sub_grid : val) (h : heap)
    (subs : list val) :
  h0 `prefix_of` h ->
  (length h0 <= g)%nat ->
  h !! g = Some subs ->
  valid_sub_grid h0 sub_grid ->
  match normalise_sub_grid h0 sub_grid with
  | inl e => snd (check_sub_grid (VList g) sub_grid h) = inl e
  | inr row =>
      check_sub_grid (VList g) sub_grid h
      = (<[g := subs ++ [VList (length h)]]> (h ++ [row]), ok tt)
  end.
Proof.
  intros Hp Hge Hg [Hv Hitems].
  unfold normalise_sub_grid, check_sub_grid, bind.
  rewrite iterate_read, (read_items_stable h0 h Hp _ Hv).
  unfold read_items. destruct (items h0 sub_grid) as [xs|] eqn:Hxs;
    [|reflexivity].
  cbn [rbind ok new_list].
  assert (g < length h)%nat as Hlt by (eapply lookup_lt_Some; exact Hg).
  rewrite (append_run g _ _ subs) by (apply lookup_app_l_Some, Hg).
  set (h2 := <[g := subs ++ [VList (length h)]]> (h ++ [xs])).
  assert (h0 `prefix_of` h2) as Hp2
    by (apply prefix_insert; [apply prefix_alloc, Hp|exact Hge]).
  assert (h2 !! length h = Some ([] ++ xs)) as Hs.
  { unfold h2. rewrite list_lookup_insert_ne by lia.
    apply list_lookup_middle. reflexivity. }
  destruct (for_enumerate_run h0 (length h) xs [] h2 Hp2
              (prefix_length _ _ Hp) Hs (Hitems xs eq_refl))
    as (cell & Hfst & Hsnd).
  cbn [length] in Hfst, Hsnd.
  destruct (mapR (normalise_dimension h0) xs) as [e|row]; [exact Hsnd|].
  destruct Hsnd as [Hr ->].
  rewrite (surjective_pairing (for_enumerate _ _ _ _ _)), Hfst, Hr.
  f_equal. unfold h2. cbn [app].
  rewrite list_insert_insert_ne by lia. f_equal.
  rewrite insert_app_r_alt by lia. rewrite Nat.sub_diag. reflexivity.
Qed.

Lemma for_each_run (h0 base : heap) (g : loc) (sub_grids : list val) :
  h0 `prefix_of` base ->
  (length h0 <= g)%nat ->
  (g < length base)%nat ->
  Forall (valid_sub_grid h0) sub_grids ->
  forall rows,
    match mapR (normalise_sub_grid h0) sub_grids with
    | inl e =>
        snd (for_each sub_grids (check_sub_grid (VList g))
               (grid_store base g rows)) = inl e
    | inr rows' =>
        for_each sub_grids (check_sub_grid (VList g)) (grid_store base g rows)
        = (grid_store base g (rows ++ rows'), ok tt)
    end.
Proof.
  intros Hp Hge Hlt Hv.
  induction Hv as [|sub_grid sub_grids Hsg _ IH]; intros rows.
  - simpl. rewrite app_nil_r. reflexivity.
  - cbn [for_each mapR]. unfold bind.
    assert (h0 `prefix_of` grid_store base g rows) as Hp'.
    { apply prefix_insert; [|exact Hge]. etrans; [exact Hp|].
      apply prefix_app_r. reflexivity. }
    assert (grid_store base g rows !! g
            = Some (VList <$> seq (length base) (length rows))) as Hg.
    { apply list_lookup_insert_eq. rewrite length_app. lia. }
    pose proof (check_sub_grid_run h0 g sub_grid _ _ Hp' Hge Hg Hsg) as Hrun.
    destruct (normalise_sub_grid h0 sub_grid) as [e|row].
    + cbn [rbind].
      rewrite (surjective_pairing (check_sub_grid _ _ _)), Hrun. reflexivity.
    + rewrite Hrun. cbn [rbind].
      assert (<[g := (VList <$> seq (length base) (length rows))
                       ++ [VList (length (grid_store base g rows))]]>
                (grid_store base g rows ++ [row])
              = grid_store base g (rows ++ [row])) as Hnext.
      { unfold grid_store.
        rewrite length_insert, !length_app. cbn [length].
        rewrite Nat.add_1_r, seq_S, fmap_app. cbn [fmap list_fmap].
        rewrite <- insert_app_l by (rewrite length_app; lia).
        rewrite list_insert_insert_eq. rewrite <- app_assoc. reflexivity. }
      rewrite Hnext. specialize (IH (rows ++ [row])).
      destruct (mapR (normalise_sub_grid h0) sub_grids) as [e|rows'];
        [exact IH|].
      rewrite IH. rewrite <- app_assoc. reflexivity.
Qed.

Lemma read_grid_store (base : heap) (g : loc) (rows : list (list val)) :
  (g < length base)%nat ->
  read_grid (grid_store base g rows) (VList g) = Some rows.
Proof.
  intros Hlt. unfold read_grid, grid_store. cbn [items].
  rewrite list_lookup_insert_eq by (rewrite length_app; lia).
  cbn [mbind option_bind].
  apply mapM_Some_2.
  apply Forall2_same_length_lookup_2.
  - rewrite length_fmap, length_seq. reflexivity.
  - intros j v row Hv Hrow.
    apply list_lookup_fmap_Some in Hv as (l & -> & Hl).
    apply lookup_seq in Hl as [-> Hj]. cbn [items].
    rewrite list_lookup_insert_ne by lia.
    rewrite lookup_app_r by lia.
    replace (length base + j - length base)%nat with j by lia. exact Hrow.
Qed.

Lemma wf_grid_sub_grids (h : heap) (grid : val) (xs : list val) :
  wf_grid h grid -> items h grid = Some xs -> Forall (valid_sub_grid h) xs.
Proof. intros [_ Hw] Hxs. exact (Hw xs Hxs). Qed.

Lemma wf_grid_flat (h : heap) (grid : val) :
  wf_grid h grid -> valid_sub_grid h grid.
Proof.
  intros [Hv Hw]. split; [exact Hv|]. intros ys Hys.
  eapply Forall_impl; [exact (Hw ys Hys)|]. intros sg [Hsg _]. exact Hsg.
Qed.

(** [check_grid] computes [normalise]: it raises what [normalise] raises,
    and the grid it returns reads as the rows [normalise] gives. *)
Theorem check_grid_refines (h : heap) (grid : val) :
  wf_grid h grid ->
  match normalise h grid with
  | inl e => snd (check_grid grid h) = inl e
  | inr rows =>
      exists g,
        snd (check_grid grid h) = ok (VList g)
        /\ read_grid (fst (check_grid grid h)) (VList g) = Some rows
  end.
Proof.
  intros Hwf. unfold normalise, check_grid, bind.
  rewrite is_flat_read.
  destruct (flat h grid) as [e|is_flat]; [reflexivity|].
  cbn [rbind].
  assert (forall (base : heap) (g : loc) (sub_grids : list val),
            h `prefix_of` base -> (length h <= g)%nat ->
            base !! g = Some [] ->
            Forall (valid_sub_grid h) sub_grids ->
            match mapR (normalise_sub_grid h) sub_grids with
            | inl e =>
                snd (let (h', r) :=
                       for_each sub_grids (check_sub_grid (VList g)) base in
                     match r with
                     | inl e => (h', inl e)
                     | inr _ => ret (VList g) h'
                     end) = inl e
            | inr rows =>
                exists g0,
                  snd (let (h', r) :=
                         for_each sub_grids (check_sub_grid (VList g)) base in
                       match r with
                       | inl e => (h', inl e)
                       | inr _ => ret (VList g) h'
                       end) = ok (VList g0)
                  /\ read_grid
                       (fst (let (h', r) :=
                               for_each sub_grids (check_sub_grid (VList g)) base in
                             match r with
                             | inl e => (h', inl e)
                             | inr _ => ret (VList g) h'
                             end)) (VList g0) = Some rows
            end) as Hloop.
  { intros base g sub_grids Hp Hge Hg Hv.
    assert (g < length base)%nat as Hlt by (eapply lookup_lt_Some; exact Hg).
    assert (grid_store base g [] = base) as Hbase
      by (unfold grid_store; rewrite app_nil_r; apply list_insert_id, Hg).
    pose proof (for_each_run h base g sub_grids Hp Hge Hlt Hv []) as Hrun.
    rewrite Hbase in Hrun.
    destruct (mapR (normalise_sub_grid h) sub_grids) as [e|rows].
    - destruct (for_each _ _ base) as [h' r]. simpl in Hrun. subst r.
      reflexivity.
    - rewrite Hrun. exists g. split; [reflexivity|].
      apply read_grid_store, Hlt. }
  destruct is_flat.
  - cbn [new_list ok rbind].
    set (h1 := h ++ [[grid]]). set (base := h1 ++ [[]]).
    assert (length h1 = S (length h)) as Hl1
      by (unfold h1; rewrite length_app, Nat.add_1_r; reflexivity).
    rewrite iterate_read. unfold read_items. cbn [items].
    replace (base !! length h) with (Some [grid]).
    2:{ symmetry. unfold base. rewrite lookup_app_l by lia.
        apply list_lookup_middle. reflexivity. }
    apply Hloop.
    + exists ([[grid]] ++ [[]]). unfold base, h1. rewrite <- app_assoc. reflexivity.
    + lia.
    + apply list_lookup_middle. reflexivity.
    + constructor; [apply wf_grid_flat, Hwf|constructor].
  - cbn [ret new_list].
    set (base := h ++ [[]]).
    assert (h `prefix_of` base) as Hp by (apply prefix_app_r; reflexivity).
    rewrite iterate_read.
    rewrite (read_items_stable h base Hp grid) by apply Hwf.
    unfold read_items. destruct (items h grid) as [xs|] eqn:Hxs;
      [|reflexivity].
    cbn [rbind ok]. apply Hloop.
    + exact Hp.
    + lia.
    + apply list_lookup_middle. reflexivity.
    + apply (wf_grid_sub_grids h grid xs Hwf Hxs).
Qed.

(** *** The store may grow between two calls *)

Lemma index_elem_of {A} (xs : list A) (i : Z) (x : A) :
  index xs i = ok x -> x ∈ xs.
Proof.
  unfold index. destruct (_ && _)%bool; [|discriminate].
  destruct (xs !! _) as [y|] eqn:Hy; [|discriminate].
  intros [= <-]. eapply list_elem_of_lookup_2, Hy.
Qed.

Section Extend.
Variables (h h' : heap) (grid : val).
Hypothesis extends : h `prefix_of` h'.
Hypothesis wf : wf_grid h grid.

Lemma valid_sub_grid_extend (sg : val) :
  valid_sub_grid h sg -> valid_sub_grid h' sg.
Proof.
  intros [Hv Hys]. split; [eapply valid_extend; eassumption|].
  intros ys. rewrite (items_stable h h' extends sg Hv). intros Hi.
  eapply Forall_impl; [exact (Hys ys Hi)|].
  intros v. apply valid_extend, extends.
Qed.

Lemma wf_grid_extend : wf_grid h' grid.
Proof.
  destruct wf as [Hv Hxs]. split; [eapply valid_extend; eassumption|].
  intros xs. rewrite (items_stable h h' extends grid Hv). intros Hi.
  eapply Forall_impl; [exact (Hxs xs Hi)|].
  intros sg. apply valid_sub_grid_extend.
Qed.

Lemma normalise_sub_grid_extend (sg : val) :
  valid_sub_grid h sg -> normalise_sub_grid h' sg = normalise_sub_grid h sg.
Proof.
  intros [Hv Hys]. unfold normalise_sub_grid.
  rewrite (read_items_stable h h' extends sg Hv).
  unfold read_items. destruct (items h sg) as [ys|] eqn:Hi; [|reflexivity].
  cbn [rbind ok].
  apply (mapR_normalise_dimension_stable h h' extends), Hys. reflexivity.
Qed.

Lemma flat_extend : flat h' grid = flat h grid.
Proof.
  destruct wf as [Hv Hxs]. unfold flat.
  rewrite (read_items_stable h h' extends grid Hv).
  assert (read_items h grid
          = match items h grid with
            | Some xs => ok xs
            | None => raise TypeError
            end) as Hr by reflexivity.
  destruct (items h grid) as [xs|] eqn:Hi; rewrite Hr; [|reflexivity].
  cbn [rbind ok].
  destruct (index xs 0) as [e|g0] eqn:Hg0; [reflexivity|].
  cbn [rbind].
  assert (valid h g0) as Hv0.
  { apply index_elem_of in Hg0.
    pose proof (Hxs xs eq_refl) as Hall.
    rewrite Forall_forall in Hall. apply (Hall g0 Hg0). }
  rewrite (isinstance_Sequence_stable h h' extends g0 Hv0).
  rewrite (read_items_stable h h' extends g0 Hv0). reflexivity.
Qed.

Lemma normalise_extend : normalise h' grid = normalise h grid.
Proof.
  unfold normalise. rewrite flat_extend.
  destruct (flat h grid) as [e|is_flat]; [reflexivity|].
  cbn [rbind].
  assert (forall sgs, Forall (valid_sub_grid h) sgs ->
            mapR (normalise_sub_grid h') sgs = mapR (normalise_sub_grid h) sgs)
    as Hrows.
  { induction 1 as [|sg sgs Hsg _ IH]; [reflexivity|].
    cbn [mapR]. rewrite (normalise_sub_grid_extend sg Hsg), IH. reflexivity. }
  destruct is_flat.
  - cbn [rbind ok]. apply Hrows.
    constructor; [apply wf_grid_flat, wf|constructor].
  - rewrite (read_items_stable h h' extends grid) by apply wf.
    unfold read_items. destruct (items h grid) as [xs|] eqn:Hi; [|reflexivity].
    cbn [rbind ok]. apply Hrows, (wf_grid_sub_grids h grid xs wf Hi).
Qed.

End Extend.

Lemma validb_valid (h : heap) (v : val) : validb h v = true -> valid h v.
Proof. destruct v; try (intros; exact I). simpl. apply Nat.ltb_lt. Qed.

Lemma well_formed_wf (h : heap) (grid : val) :
  well_formed h grid = true -> wf_grid h grid.
Proof.
  unfold well_formed. intros Hw. apply andb_true_iff in Hw as [Hv Hxs].
  split; [apply validb_valid, Hv|].
  intros xs Hi. rewrite Hi in Hxs.
  apply Forall_forall. intros sg Hsg.
  rewrite forallb_forall in Hxs.
  specialize (Hxs sg (proj1 (list_elem_of_In _ _) Hsg)).
  apply andb_true_iff in Hxs as [Hv' Hys].
  split; [apply validb_valid, Hv'|].
  intros ys Hi'. rewrite Hi' in Hys.
  apply Forall_forall. intros y Hy.
  rewrite forallb_forall in Hys.
  apply validb_valid, Hys, list_elem_of_In, Hy.
Qed.

(** *** Sampling reads the store through the normalised grid only *)

Section SampleRows.
Context `{SciPy}.

Lemma index_rows (h : heap) (subs : list val) (rows : list (list val)) (k : Z) :
  Forall2 (fun sub row => items h sub = Some row) subs rows ->
  (sub <-? index subs k ;; read_items h sub) = index rows k.
Proof.
  intros Hrows. unfold index.
  rewrite (Forall2_length _ _ _ Hrows).
  destruct (_ && _)%bool; [|reflexivity].
  destruct (subs !! _) as [sub|] eqn:Hsub.
  - destruct (Forall2_lookup_l _ _ _ _ _ Hrows Hsub) as (row & -> & Hi).
    cbn [rbind ok]. unfold read_items. rewrite Hi. reflexivity.
  - apply lookup_ge_None in Hsub. rewrite (Forall2_length _ _ _ Hrows) in Hsub.
    apply lookup_ge_None in Hsub. rewrite Hsub. reflexivity.
Qed.

Lemma sample_point_rows (h : heap) (grid_ : val) (rows : list (list val))
    (rng : rng_ref) (w : rngs) :
  read_grid h grid_ = Some rows ->
  sample_point h grid_ rng w = sample_row rows rng w.
Proof.
  unfold read_grid. intros Hr.
  destruct (items h grid_) as [subs|] eqn:Hsubs; [|discriminate].
  cbn [mbind option_bind] in Hr. apply mapM_Some_1 in Hr.
  unfold sample_point, sample_row, bind, lift.
  rewrite len_read. unfold read_items at 1. rewrite Hsubs.
  cbn [snd rbind ok].
  rewrite (Forall2_length _ _ _ Hr).
  destruct (with_rng rng (RandomState_randint 0 (Z.of_nat (length rows))) w)
    as [w' [e|k]]; [reflexivity|].
  rewrite getitem_read. unfold read_items at 1. rewrite Hsubs.
  cbn [snd rbind ok].
  rewrite <- (index_rows h subs rows k Hr).
  destruct (index subs k) as [e|sub]; [reflexivity|].
  cbn [rbind]. rewrite iterate_read. reflexivity.
Qed.

Lemma sample_loop_rows (hA hB : heap) (gA gB : val) (rows : list (list val))
    (rng : rng_ref) (n : nat) (w : rngs) :
  read_grid hA gA = Some rows ->
  read_grid hB gB = Some rows ->
  sample_loop hA gA rng n w = sample_loop hB gB rng n w.
Proof.
  intros HA HB. revert w. induction n as [|n IH]; intros w; [reflexivity|].
  simpl. rewrite (sample_point_rows hA gA rows rng w HA).
  rewrite (sample_point_rows hB gB rows rng w HB).
  destruct (sample_row rows rng w) as [w' [e|p]]; [reflexivity|].
  rewrite IH. reflexivity.
Qed.

End SampleRows.

(** ** Reproducible sampling *)

Section Reproducible.
Context `{SciPy}.
Variables (i1 i2 : nat).

Lemma agree_lift {A} (r : result A) : agree i1 i2 (lift r) (lift r).
Proof. intros w1 w2 Hw. split; [reflexivity|exact Hw]. Qed.

Lemma agree_ret {A} (a : A) : agree i1 i2 (ret a) (ret a).
Proof. intros w1 w2 Hw. split; [reflexivity|exact Hw]. Qed.

Lemma agree_throw {A} (e : exn) : agree i1 i2 (@throw rngs A e) (throw e).
Proof. intros w1 w2 Hw. split; [reflexivity|exact Hw]. Qed.

Lemma agree_bind {A B} (c1 c2 : ST rngs A) (k1 k2 : A -> ST rngs B) :
  agree i1 i2 c1 c2 -> (forall a, agree i1 i2 (k1 a) (k2 a)) ->
  agree i1 i2 (bind c1 k1) (bind c2 k2).
Proof.
  intros Hc Hk w1 w2 Hw. unfold bind.
  destruct (Hc w1 w2 Hw) as [Hr Hw'].
  destruct (c1 w1) as [w1' r1], (c2 w2) as [w2' r2]. simpl in *. subst r2.
  destruct r1 as [e|a]; [split; [reflexivity|exact Hw']|].
  apply Hk, Hw'.
Qed.

Lemma agree_with_rng {A}
    (draw : RandomState -> RandomState * result A) :
  agree i1 i2 (with_rng (Instance i1) draw) (with_rng (Instance i2) draw).
Proof.
  intros w1 w2 (st & H1 & H2). unfold with_rng. rewrite H1, H2.
  destruct (draw st) as [st' a]. simpl.
  split; [reflexivity|]. exists st'.
  split; apply list_lookup_insert_eq; eapply lookup_lt_Some; eassumption.
Qed.

Lemma agree_scipy_rvs (r : rv) (size : val) :
  agree i1 i2 (scipy_rvs r size (VRandomState (Instance i1)))
        (scipy_rvs r size (VRandomState (Instance i2))).
Proof.
  intros w1 w2 Hw. unfold scipy_rvs.
  destruct (tuple_lt sp_version [0; 16]%Z); [split; [reflexivity|exact Hw]|].
  apply agree_with_rng, Hw.
Qed.

(** Before scipy 0.16 a draw raises before it reads any generator. *)
Lemma agree_scipy_rvs_old (r : rv) (size random_state : val) :
  tuple_lt sp_version [0; 16]%Z = true ->
  agree i1 i2 (scipy_rvs r size random_state) (scipy_rvs r size random_state).
Proof.
  intros Hold w1 w2 Hw. unfold scipy_rvs. rewrite Hold.
  split; [reflexivity|exact Hw].
Qed.

Lemma agree_call_rvs (dist : val) (size rs1 rs2 : val) :
  (forall r, agree i1 i2 (scipy_rvs r size rs1) (scipy_rvs r size rs2)) ->
  agree i1 i2 (call_rvs dist size rs1) (call_rvs dist size rs2).
Proof.
  intros Hdraw. destruct dist; try apply agree_throw.
  destruct d; simpl; unfold Real_rvs, Integer_rvs, Categorical_rvs;
    (apply agree_bind; [apply Hdraw|intros ?]);
    repeat (apply agree_bind; [apply agree_lift|intros ?]);
    apply agree_lift.
Qed.

Lemma agree_mapST {A B} (f1 f2 : A -> ST rngs B) (xs : list A) :
  (forall x, agree i1 i2 (f1 x) (f2 x)) -> agree i1 i2 (mapST f1 xs) (mapST f2 xs).
Proof.
  intros Hf. induction xs as [|x xs IH]; simpl; [apply agree_ret|].
  apply agree_bind; [apply Hf|intros y].
  apply agree_bind; [exact IH|intros ys]. apply agree_ret.
Qed.

(** One point: the sub-grid is drawn from the seeded generator; so is
    each dimension with scipy 0.16 or later, and with an older scipy the
    draw of a dimension raises. *)
Lemma agree_sample_point (h : heap) (grid_ : val) :
  agree i1 i2 (sample_point h grid_ (Instance i1))
        (sample_point h grid_ (Instance i2)).
Proof.
  unfold sample_point.
  apply agree_bind; [apply agree_lift|intros n].
  apply agree_bind; [apply agree_with_rng|intros k].
  apply agree_bind; [apply agree_lift|intros sub_grid].
  apply agree_bind; [apply agree_lift|intros dists].
  apply agree_bind; [|intros params; apply agree_ret].
  apply agree_mapST. intros dist.
  destruct (tuple_lt sp_version [0; 16]%Z) eqn:Hversion;
    apply agree_call_rvs; intros r.
  - apply agree_scipy_rvs_old, Hversion.
  - apply agree_scipy_rvs.
Qed.

Lemma sample_loop_agree (h : heap) (grid_ : val) (n : nat) (w1 w2 : rngs) :
  same_generator i1 i2 w1 w2 ->
  snd (sample_loop h grid_ (Instance i1) n w1)
  = snd (sample_loop h grid_ (Instance i2) n w2).
Proof.
  revert w1 w2. induction n as [|n IH]; intros w1 w2 Hw; [reflexivity|].
  simpl.
  destruct (agree_sample_point h grid_ w1 w2 Hw) as [Hr Hw'].
  destruct (sample_point h grid_ (Instance i1) w1) as [w1' r1].
  destruct (sample_point h grid_ (Instance i2) w2) as [w2' r2].
  simpl in *. subst r2.
  destruct r1 as [e|p]; [reflexivity|].
  specialize (IH w1' w2' Hw').
  destruct (sample_loop h grid_ (Instance i1) n w1') as [w1'' g1].
  destruct (sample_loop h grid_ (Instance i2) n w2') as [w2'' g2].
  simpl in *. subst g2. reflexivity.
Qed.

End Reproducible.

(** What [check_random_state] does with an integer. *)
Lemma check_random_state_Integral `{SciPy} (seed : val) :
  isinstance_Integral seed = true ->
  exists z, forall w,
    check_random_state seed w
    = match RandomState_seed z with
      | inr st => (mk_rngs (np_random w) (instances w ++ [st]),
                   ok (Instance (length (instances w))))
      | inl e => (w, raise e)
      end.
Proof.
  destruct seed; try discriminate; intros _; eexists; intros w; reflexivity.
Qed.

(** Two runs with the same integer seed, the second on a store that may
    have grown and with generators in any state. *)
Lemma sample_points_same_rows `{SciPy} (grid : val) (n_points : Z)
    (seed : val) (hA hB : heap) (wA wB : rngs) :
  isinstance_Integral seed = true ->
  wf_grid hA grid ->
  hA `prefix_of` hB ->
  snd (sample_points grid n_points seed hA wA)
  = snd (sample_points grid n_points seed hB wB).
Proof.
  intros Hseed Hwf Hp.
  pose proof (check_grid_refines hA grid Hwf) as HA.
  pose proof (check_grid_refines hB grid (wf_grid_extend hA hB grid Hp Hwf))
    as HB.
  rewrite (normalise_extend hA hB grid Hp Hwf) in HB.
  unfold sample_points.
  destruct (check_grid grid hA) as [hA' rA], (check_grid grid hB) as [hB' rB].
  cbn [fst snd] in HA, HB.
  destruct (normalise hA grid) as [e|rows]; [subst rA rB; reflexivity|].
  destruct HA as (gA & -> & HrA), HB as (gB & -> & HrB).
  destruct (check_random_state_Integral seed Hseed) as [z Hrng].
  rewrite !Hrng.
  destruct (RandomState_seed z) as [e|st]; [reflexivity|].
  unfold ok. cbn beta iota.
  set (wA' := mk_rngs (np_random wA) (instances wA ++ [st])).
  set (wB' := mk_rngs (np_random wB) (instances wB ++ [st])).
  assert (same_generator (length (instances wA)) (length (instances wB))
            wA' wB') as Hw
    by (exists st; split; apply list_lookup_middle; reflexivity).
  pose proof (sample_loop_agree (length (instances wA)) (length (instances wB))
                hA' (VList gA) (Z.to_nat n_points) wA' wB' Hw) as Hloop.
  rewrite (sample_loop_rows hA' hB' (VList gA) (VList gB) rows _ _ wB' HrA HrB)
    in Hloop.
  revert Hloop.
  generalize (sample_loop hA' (VList gA) (Instance (length (instances wA)))
                (Z.to_nat n_points) wA').
  generalize (sample_loop hB' (VList gB) (Instance (length (instances wB)))
                (Z.to_nat n_points) wB').
  intros [wB'' gB'] [wA'' gA']. simpl. intros ->. reflexivity.
Qed.



(** In particular a run and the run that follows it, which starts from the
    store and the generators the first one leaves. *)
Corollary sample_points_twice `{SciPy} (grid : val) (n_points seed : Z)
    (h : heap) (w : rngs) :
  well_formed h grid = true ->
  let '(h1, w1, out1) := sample_points grid n_points (VInt seed) h w in
  let '(_, _, out2) := sample_points grid n_points (VInt seed) h1 w1 in
  out1 = out2.
Proof.
  intros Hwf.
  assert (h `prefix_of` fst (fst (sample_points grid n_points (VInt seed) h w)))
    as Hp.
  { unfold sample_points.
    destruct (hoare_check_grid h grid h) as [Hc _]; [reflexivity|].
    destruct (check_grid grid h) as [h' [e|grid_]]; [exact Hc|].
    destruct (check_random_state (VInt seed) w) as [w' [e|rng]]; [exact Hc|].
    destruct (sample_loop h' grid_ rng (Z.to_nat n_points) w'). exact Hc. }
  pose proof (fun w1 => sample_points_same_rows grid n_points (VInt seed) h _
                          w w1 eq_refl (well_formed_wf h grid Hwf) Hp)
    as Hsame.
  destruct (sample_points grid n_points (VInt seed) h w) as [[h1 w1] out1].
  specialize (Hsame w1). cbn [fst snd] in Hsame.
  destruct (sample_points grid n_points (VInt seed) h1 w1) as [[h2 w2] out2].
  exact Hsame.
Qed.

(** The run of the witness yields three points, and the same run with a
    scipy older than 0.16 ends with the TypeError of the first draw. *)
Example sample_points_seeded_runs :
  snd (@sample_points scipy_0_17 (VList 0) 3 (VInt 42) two_labels_store
         (@mk_rngs scipy_0_17 0%Z []))
  = mk_generated [VTuple [VStr "a"; VStr "b"]; VTuple [VStr "a"; VStr "a"];
                  VTuple [VStr "b"; VStr "b"]] None
  /\ snd (@sample_points scipy_0_15 (VList 0) 3 (VInt 42) two_labels_store
            (@mk_rngs scipy_0_15 0%Z []))
     = mk_generated [] (Some TypeError).
Proof. split; reflexivity. Qed.

(** * Further properties *)

(** ** What the constructors accept *)

Lemma sub_not_RuntimeError (a b : val) (msg : string) (v : val) :
  sub a b <> raise (RuntimeError msg v).
Proof.
  unfold sub, to_float, float_of_int, rbind, raise, ok.
  repeat case_match; simplify_eq; discriminate.
Qed.

Lemma minus_one_not_RuntimeError (a : val) (msg : string) (v : val) :
  minus_one a <> raise (RuntimeError msg v).
Proof.
  assert (forall xs,
            mapR (fun x => sub x (VInt 1)) xs <> raise (RuntimeError msg v))
    as Hxs.
  { induction xs as [|x xs IH]; [discriminate|]. cbn [mapR].
    pose proof (sub_not_RuntimeError x (VInt 1) msg v) as Hx.
    destruct (sub x (VInt 1)) as [e|y]; cbn [rbind].
    - intros [= ->]. apply Hx. reflexivity.
    - destruct (mapR _ xs) as [e|ys]; cbn [rbind]; [|discriminate].
      intros [= ->]. apply IH. reflexivity. }
  destruct a; try apply sub_not_RuntimeError. cbn [minus_one].
  specialize (Hxs xs). destruct (mapR _ xs) as [e|ys]; cbn [rbind];
    [|discriminate].
  intros [= ->]. apply Hxs. reflexivity.
Qed.

(** X1: [Real] examines its transformer before anything else, whatever the
    bounds and the prior.  With a transformer it accepts ('identity', 'log',
    'log10' or a transformer object), whatever else goes wrong is not a
    RuntimeError.  With any other transformer that is not a numpy array the
    constructor fails on the spot: it raises RuntimeError about that
    transformer, except that a tuple is taken for the arguments of the
    message, so that a tuple of one element gives a RuntimeError about that
    element, and any other tuple a TypeError. *)
Theorem Real_transformer_RuntimeError (low high prior t : val) :
  is_array t = false ->
  if Real_accepts t
  then forall msg v, Real_init low high prior t <> raise (RuntimeError msg v)
  else Real_init low high prior t
       = match t with
         | VTuple [x] => raise (RuntimeError not_a_transformer x)
         | VTuple _ => raise TypeError
         | _ => raise (RuntimeError not_a_transformer t)
         end.
Proof.
  intros _. destruct (Real_accepts t) eqn:Ht; unfold Real_accepts in Ht.
  - intros msg v. unfold Real_init.
    assert (exists t',
              (if eq_str t "identity" then ok Identity
               else if eq_str t "log" then ok Log
               else if eq_str t "log10" then ok Log10
               else match t with
                    | VTransformer t0 => ok t0
                    | _ => arg <-? format_arg t ;;
                           raise (RuntimeError not_a_transformer arg)
                    end) = ok t') as [t' ->].
    { destruct (eq_str t "identity"); [eexists; reflexivity|].
      destruct (eq_str t "log"); [eexists; reflexivity|].
      destruct (eq_str t "log10"); [eexists; reflexivity|].
      destruct t; try discriminate Ht. eexists; reflexivity. }
    cbn [rbind ok _low _high _rvs getattr].
    destruct (eq_str prior "uniform").
    + pose proof (sub_not_RuntimeError high low msg v) as Hsub.
      destruct (sub high low) as [e|scale]; cbn [rbind ok].
      * intros [= ->]. apply Hsub. reflexivity.
      * discriminate.
    + destruct prior; try discriminate.
      destruct (is_rv_frozen r); discriminate.
  - apply orb_false_iff in Ht as [Ht Hinst].
    apply orb_false_iff in Ht as [Ht Hlog10].
    apply orb_false_iff in Ht as [Hid Hlog].
    unfold Real_init. rewrite Hid, Hlog, Hlog10.
    destruct t; try discriminate Hinst; try reflexivity.
    destruct xs as [|x [|y xs]]; reflexivity.
Qed.

Lemma Real_transformer_RuntimeError_witness :
  Real_init (VFloat 0) (VFloat 1) (VStr "uniform") (VStr "sqrt")
  = raise (RuntimeError not_a_transformer (VStr "sqrt"))
  /\ Real_init (VFloat 0) (VFloat 1) (VStr "uniform")
       (VTuple [VStr "log"; VStr "log10"])
     = raise TypeError.
Proof.
  split.
  - apply (Real_transformer_RuntimeError (VFloat 0) (VFloat 1) (VStr "uniform")
             (VStr "sqrt")).
    reflexivity.
  - apply (Real_transformer_RuntimeError (VFloat 0) (VFloat 1) (VStr "uniform")
             (VTuple [VStr "log"; VStr "log10"])).
    reflexivity.
Defined.

(** X2: the same for [Integer], which accepts 'identity' and transformer
    objects only: 'log' and 'log10', which [Real] accepts, are refused. *)
Theorem Integer_transformer_RuntimeError (low high prior t : val) :
  is_array t = false ->
  if Integer_accepts t
  then forall msg v, Integer_init low high prior t <> raise (RuntimeError msg v)
  else Integer_init low high prior t
       = match t with
         | VTuple [x] => raise (RuntimeError not_a_transformer x)
         | VTuple _ => raise TypeError
         | _ => raise (RuntimeError not_a_transformer t)
         end.
Proof.
  intros _. destruct (Integer_accepts t) eqn:Ht; unfold Integer_accepts in Ht.
  - intros msg v. unfold Integer_init.
    assert (exists t',
              (if eq_str t "identity" then ok Identity
               else match t with
                    | VTransformer t0 => ok t0
                    | _ => arg <-? format_arg t ;;
                           raise (RuntimeError not_a_transformer arg)
                    end) = ok t') as [t' ->].
    { destruct (eq_str t "identity"); [eexists; reflexivity|].
      destruct t; try discriminate Ht. eexists; reflexivity. }
    cbn [rbind ok _low _high _rvs getattr].
    destruct (eq_str prior "uniform").
    + pose proof (minus_one_not_RuntimeError high msg v) as Hm.
      destruct (minus_one high) as [e|m]; cbn [rbind ok].
      * intros [= ->]. apply Hm. reflexivity.
      * discriminate.
    + destruct prior; try discriminate.
      destruct (is_rv_frozen r); discriminate.
  - apply orb_false_iff in Ht as [Hid Hinst].
    unfold Integer_init. rewrite Hid.
    destruct t; try discriminate Hinst; try reflexivity.
    destruct xs as [|x [|y xs]]; reflexivity.
Qed.

Lemma Integer_transformer_RuntimeError_witness :
  Integer_init (VInt 0) (VInt 10) (VStr "uniform") (VStr "log")
  = raise (RuntimeError not_a_transformer (VStr "log"))
  /\ Integer_init (VInt 0) (VInt 10) (VStr "uniform") (VTuple [])
     = raise TypeError.
Proof.
  split.
  - apply (Integer_transformer_RuntimeError (VInt 0) (VInt 10) (VStr "uniform")
             (VStr "log")).
    reflexivity.
  - apply (Integer_transformer_RuntimeError (VInt 0) (VInt 10) (VStr "uniform")
             (VTuple [])).
    reflexivity.
Defined.

(** X3: the only string [Categorical] accepts as transformer is 'labels':
    the spelling 'onehot' reaches a name the module does not define, and
    every other string is refused, whatever the prior, for categories that
    are strings, numbers or [None] (of which [np.asarray] makes an array,
    before the transformer is looked at). *)
Theorem Categorical_transformer_strings (categories_ : list val)
    (prior : val) (s : string) :
  forallb scalar_category categories_ = true ->
  s <> "labels"%string ->
  Categorical_init categories_ prior (VStr s)
  = if String.eqb s "onehot"
    then raise (NameError "CategoryTransform")
    else raise (RuntimeError not_a_transformer (VStr s)).
Proof.
  intros _ Hs. unfold Categorical_init. cbn [eq_str].
  destruct (String.eqb s "onehot") eqn:E1; [reflexivity|].
  destruct (String.eqb s "labels") eqn:E2; [|reflexivity].
  apply String.eqb_eq in E2. contradiction.
Qed.

Lemma Categorical_transformer_strings_witness :
  Categorical_init [VStr "a"; VStr "b"] VNone (VStr "onehot")
  = raise (NameError "CategoryTransform")
  /\ Categorical_init [VStr "a"; VStr "b"] VNone (VStr "ordinal")
     = raise (RuntimeError not_a_transformer (VStr "ordinal")).
Proof.
  split.
  - apply (Categorical_transformer_strings [VStr "a"; VStr "b"] VNone "onehot");
      [reflexivity|discriminate].
  - apply (Categorical_transformer_strings [VStr "a"; VStr "b"] VNone "ordinal");
      [reflexivity|discriminate].
Defined.

(** ** What a categorical dimension returns *)

Lemma index_in_range_at (cats : list val) (k : Z) :
  (- Z.of_nat (length cats) <= k < Z.of_nat (length cats))%Z ->
  exists x, index cats k = ok x /\ category_at cats (VInt k) x.
Proof.
  intros Hk. unfold index, category_at.
  set (j := if (k <? 0)%Z then (k + Z.of_nat (length cats))%Z else k).
  assert (0 <= j < Z.of_nat (length cats))%Z as Hj
    by (unfold j; destruct (k <? 0)%Z eqn:E;
        [apply Z.ltb_lt in E|apply Z.ltb_ge in E]; lia).
  destruct (0 <=? j)%Z eqn:E1; [|apply Z.leb_gt in E1; lia].
  destruct (j <? Z.of_nat (length cats))%Z eqn:E2;
    [|apply Z.ltb_ge in E2; lia].
  cbn [andb].
  destruct (cats !! Z.to_nat j) as [x|] eqn:Hx.
  - exists x. split; reflexivity.
  - apply lookup_ge_None in Hx. lia.
Qed.

Lemma mapR_take_at (cats : list val) (cs : list val) :
  Forall (index_in_range (length cats)) cs ->
  exists xs,
    mapR (fun c => match c with
                   | VInt k => index cats k
                   | _ => raise IndexError
                   end) cs = ok xs
    /\ Forall2 (category_at cats) cs xs.
Proof.
  induction 1 as [|c cs Hc _ (xs & Hxs & Hall)].
  - exists []. split; [reflexivity|constructor].
  - destruct c; try contradiction. simpl in Hc.
    destruct (index_in_range_at cats z Hc) as (x & Hx & Hat).
    exists (x :: xs). cbn [mapR]. rewrite Hx, Hxs. cbn [rbind ok].
    split; [reflexivity|]. constructor; assumption.
Qed.

Section CategoricalRvs.
Context `{SciPy}.

(** X4: [rvs] of a categorical dimension returns what its prior draws,
    looked up in the categories, and the generators as the draw left them:
    for an index [k] of the category array the category at position [k]
    (at position [k + len(categories)] when [k] is negative), for an array
    of indices the array of the categories at these positions, in order.
    Unlike [Real] and [Integer], it reads no unbound name. *)
Theorem Categorical_rvs_selects (cats : list val) (t : Transformer)
    (r : rv) (n_samples random_state : val) (w : rngs) (choices : val) :
  snd (scipy_rvs r n_samples random_state w) = ok choices ->
  match choices with
  | VArray cs => Forall (index_in_range (length cats)) cs
  | c => index_in_range (length cats) c
  end ->
  exists v,
    rvs (Categorical cats t r) n_samples random_state w
    = (fst (scipy_rvs r n_samples random_state w), ok v)
    /\ match choices with
       | VArray cs => exists xs, v = VArray xs /\ Forall2 (category_at cats) cs xs
       | c => category_at cats c v
       end.
Proof.
  intros Hdraw Hrange. simpl rvs. unfold Categorical_rvs, bind.
  destruct (scipy_rvs r n_samples random_state w) as [w' d]. simpl in *.
  subst d. unfold lift, np_take, ok.
  destruct choices; try contradiction; cbn beta iota zeta.
  - simpl in Hrange.
    destruct (index_in_range_at cats z Hrange) as (x & Hx & Hat).
    exists x. unfold ok in Hx. rewrite Hx. split; [reflexivity|exact Hat].
  - destruct (mapR_take_at cats xs Hrange) as (ys & Hys & Hall).
    exists (VArray ys). unfold ok in Hys. rewrite Hys. split; [reflexivity|].
    exists ys. split; [reflexivity|exact Hall].
Qed.

End CategoricalRvs.

Lemma Categorical_rvs_selects_witness :
  let cats := [VStr "a"; VStr "b"] in
  let prior := rv_discrete [0; 1]%Z (VArray [VFloat 0.5; VFloat 0.5]) in
  let w := @mk_rngs scipy_0_17 256%Z [] in
  snd (@scipy_rvs scipy_0_17 prior VNone VNone w) = ok (VInt 1)
  /\ exists v,
       @rvs scipy_0_17 (Categorical cats Identity prior) VNone VNone w
       = (fst (@scipy_rvs scipy_0_17 prior VNone VNone w), ok v)
       /\ cats !! 1%nat = Some v.
Proof.
  split; [reflexivity|].
  apply (@Categorical_rvs_selects scipy_0_17 [VStr "a"; VStr "b"]
           Identity (rv_discrete [0; 1]%Z (VArray [VFloat 0.5; VFloat 0.5]))
           VNone VNone (@mk_rngs scipy_0_17 256%Z []) (VInt 1));
    [reflexivity|simpl; lia].
Defined.

(** ** Grids of bounds *)

Lemma normalise_dimension_bounds (h : heap) (b : bounds) :
  normalise_dimension h (spec_of b) = ok (dimension_of b).
Proof. destruct b; reflexivity. Qed.

Lemma mapR_normalise_bounds (h : heap) (bs : list bounds) :
  mapR (normalise_dimension h) (spec_of <$> bs) = ok (dimension_of <$> bs).
Proof.
  induction bs as [|b bs IH]; [reflexivity|].
  cbn [fmap list_fmap mapR]. rewrite normalise_dimension_bounds.
  cbn [fmap list_fmap] in IH. rewrite IH. reflexivity.
Qed.

Lemma flat_bounds (h : heap) (b : bounds) (bs : list bounds) :
  flat h (VTuple (spec_of <$> b :: bs)) = ok true.
Proof. destruct b; reflexivity. Qed.

Lemma wf_grid_flat_bounds (h : heap) (bs : list bounds) :
  wf_grid h (VTuple (spec_of <$> bs)).
Proof.
  split; [exact I|]. intros xs Hxs. cbn [items] in Hxs. injection Hxs as <-.
  apply Forall_fmap, Forall_forall. intros b' _.
  destruct b'; (split; [exact I|]); intros ys Hys; injection Hys as <-;
    repeat constructor.
Qed.

Lemma normalise_flat_bounds (h : heap) (b : bounds) (bs : list bounds) :
  normalise h (VTuple (spec_of <$> b :: bs)) = ok [dimension_of <$> b :: bs].
Proof.
  unfold normalise. rewrite flat_bounds. cbn [rbind ok mapR].
  unfold normalise_sub_grid, read_items. cbn [items rbind ok].
  rewrite mapR_normalise_bounds. reflexivity.
Qed.

(** X5: a flat grid of specs [(low, high)], each of two integers or of two
    floats, is normalised to one sub-grid, with an [Integer] for a pair of
    integers and a [Real] for a pair of floats, in the order of the specs.
    Nothing about the two numbers is checked, [low < high] included. *)
Theorem check_grid_flat_bounds (b : bounds) (bs : list bounds) (h : heap) :
  let grid := VTuple (spec_of <$> b :: bs) in
  exists g,
    snd (check_grid grid h) = ok (VList g)
    /\ read_grid (fst (check_grid grid h)) (VList g)
       = Some [dimension_of <$> b :: bs].
Proof.
  cbn zeta.
  pose proof (check_grid_refines h _ (wf_grid_flat_bounds h (b :: bs)))
    as Href.
  rewrite normalise_flat_bounds in Href. exact Href.
Qed.

(** X6: a nested grid of such specs is normalised sub-grid by sub-grid.  The
    first sub-grid has a spec, as the flat test reads it. *)
Theorem check_grid_nested_bounds (b : bounds) (bs : list bounds)
    (rest : list (list bounds)) (h : heap) :
  let grid := VTuple (sub_grid_of <$> (b :: bs) :: rest) in
  exists g,
    snd (check_grid grid h) = ok (VList g)
    /\ read_grid (fst (check_grid grid h)) (VList g)
       = Some (row_of <$> (b :: bs) :: rest).
Proof.
  cbn zeta.
  assert (forall row, valid_sub_grid h (sub_grid_of row)) as Hrow.
  { intros row. split; [exact I|]. intros ys Hys. injection Hys as <-.
    apply Forall_fmap, Forall_forall. intros b' _. destruct b'; exact I. }
  assert (wf_grid h (VTuple (sub_grid_of <$> (b :: bs) :: rest))) as Hwf.
  { split; [exact I|]. intros xs Hxs. cbn [items] in Hxs. injection Hxs as <-.
    change (Forall (valid_sub_grid h) (sub_grid_of <$> ((b :: bs) :: rest))).
    apply Forall_fmap, Forall_forall. intros row _. apply Hrow. }
  pose proof (check_grid_refines h _ Hwf) as Href.
  assert (flat h (VTuple (sub_grid_of <$> (b :: bs) :: rest)) = ok false)
    as Hflat by (destruct b; reflexivity).
  unfold normalise in Href. rewrite Hflat in Href.
  cbn [rbind ok] in Href. unfold read_items in Href.
  cbn [items rbind ok] in Href.
  assert (forall rows : list (list bounds),
            mapR (normalise_sub_grid h) (sub_grid_of <$> rows)
            = ok (row_of <$> rows)) as Hrows.
  { induction rows as [|row rows IH]; [reflexivity|].
    cbn [fmap list_fmap mapR]. unfold normalise_sub_grid at 1.
    unfold read_items, sub_grid_of at 1. cbn [items rbind ok].
    rewrite mapR_normalise_bounds. cbn [rbind ok].
    cbn [fmap list_fmap] in IH. rewrite IH. reflexivity. }
  rewrite Hrows in Href. exact Href.
Qed.

(** ** A spec that is too short *)

(** X7: a spec made of a single number has a lower bound and no upper bound:
    the constructor it is handed to misses an argument, and [check_grid]
    raises TypeError, in a flat grid and in a nested one. *)
Theorem check_grid_single_number_TypeError (x : val) (h : heap) :
  isinstance_Real x = true ->
  snd (check_grid (VTuple [VTuple [x]]) h) = raise TypeError
  /\ snd (check_grid (VTuple [VTuple [VTuple [x]]]) h) = raise TypeError.
Proof.
  intros Hx.
  assert (valid h x) as Hv by (destruct x; try discriminate Hx; exact I).
  assert (valid_sub_grid h (VTuple [x])) as H1.
  { split; [exact I|]. intros ys Hys. injection Hys as <-.
    constructor; [exact Hv|constructor]. }
  assert (valid_sub_grid h (VTuple [VTuple [x]])) as H2.
  { split; [exact I|]. intros ys Hys. injection Hys as <-.
    constructor; [exact I|constructor]. }
  assert (wf_grid h (VTuple [VTuple [x]])) as Hflat.
  { split; [exact I|]. intros xs Hxs. injection Hxs as <-.
    constructor; [exact H1|constructor]. }
  assert (wf_grid h (VTuple [VTuple [VTuple [x]]])) as Hnested.
  { split; [exact I|]. intros xs Hxs. injection Hxs as <-.
    constructor; [exact H2|constructor]. }
  split.
  - pose proof (check_grid_refines h _ Hflat) as Href.
    destruct x; try discriminate Hx; exact Href.
  - pose proof (check_grid_refines h _ Hnested) as Href.
    destruct x; try discriminate Hx; exact Href.
Qed.

Lemma check_grid_single_number_TypeError_witness :
  snd (check_grid (VTuple [VTuple [VInt 1]]) []) = raise TypeError
  /\ snd (check_grid (VTuple [VTuple [VTuple [VInt 1]]]) []) = raise TypeError.
Proof.
  apply (check_grid_single_number_TypeError (VInt 1) []). reflexivity.
Defined.

(** ** The shape of what is returned *)

Lemma mapR_ok_Forall2 {A B} (f : A -> result B) (xs : list A) (ys : list B) :
  mapR f xs = ok ys -> Forall2 (fun x y => f x = ok y) xs ys.
Proof.
  revert ys. induction xs as [|x xs IH]; intros ys.
  - intros [= <-]. constructor.
  - cbn [mapR]. destruct (f x) as [e|y] eqn:Hy; [discriminate|].
    cbn [rbind]. destruct (mapR f xs) as [e|ys']; [discriminate|].
    intros [= <-]. constructor; [exact Hy|]. apply IH. reflexivity.
Qed.

Lemma normalise_dimension_entry (h : heap) (spec entry : val) :
  normalise_dimension h spec = ok entry -> entry_of spec entry.
Proof.
  unfold normalise_dimension, entry_of.
  destruct (isinstance_Distribution spec) eqn:Hd; [intros [= <-]; left; reflexivity|].
  destruct (read_items h spec) as [e|xs]; [discriminate|]. cbn [rbind].
  destruct (if (2 <? length xs)%nat then ok true
            else d0 <-? index xs 0 ;; ok (isinstance_str d0)) as [e|[|]];
    [discriminate| |]; cbn [rbind].
  - destruct (Categorical_ xs); [discriminate|]. intros [= <-]. right. split; reflexivity.
  - destruct (index xs 0) as [e|d0]; [discriminate|]. cbn [rbind].
    destruct (isinstance_Integral d0).
    + destruct (apply_init Integer_init _ _ xs); [discriminate|].
      intros [= <-]. right. split; reflexivity.
    + destruct (isinstance_Real d0).
      * destruct (apply_init Real_init _ _ xs); [discriminate|].
        intros [= <-]. right. split; reflexivity.
      * intros [= <-]. left. reflexivity.
Qed.

(** X8: [check_grid] neither adds nor drops a dimension: the grid it returns has
    one row for each sub-grid (one row in all for a flat grid), each row has
    one entry for each spec of its sub-grid, in order, and an entry is
    either the spec as it was or a Distribution that replaces a spec that
    was not one.  A Distribution given by the caller is returned as it
    was. *)
Theorem check_grid_shape (grid : val) (h h' : heap) (g : val) :
  well_formed h grid = true ->
  check_grid grid h = (h', ok g) ->
  exists sub_grids rows,
    read_grid h' g = Some rows
    /\ (sub_grids = [grid] \/ items h grid = Some sub_grids)
    /\ Forall2 (fun sub_grid row =>
                  exists specs,
                    items h sub_grid = Some specs
                    /\ Forall2 entry_of specs row) sub_grids rows.
Proof.
  intros Hwf Hc. apply well_formed_wf in Hwf.
  pose proof (check_grid_refines h grid Hwf) as Href.
  rewrite Hc in Href. cbn [fst snd] in Href.
  unfold normalise in Href.
  destruct (flat h grid) as [e|is_flat]; [discriminate Href|].
  cbn [rbind] in Href.
  destruct (if is_flat then ok [grid] else read_items h grid)
    as [e|sub_grids] eqn:Hsg; [discriminate Href|].
  cbn [rbind] in Href.
  destruct (mapR (normalise_sub_grid h) sub_grids) as [e|rows] eqn:Hrows;
    [discriminate Href|].
  destruct Href as (g' & [= ->] & Hread).
  exists sub_grids, rows. split; [exact Hread|]. split.
  - destruct is_flat; [left; injection Hsg as <-; reflexivity|right].
    unfold read_items in Hsg. destruct (items h grid); [|discriminate].
    injection Hsg as <-. reflexivity.
  - apply mapR_ok_Forall2 in Hrows.
    eapply Forall2_impl; [exact Hrows|].
    intros sub_grid row Hrow. unfold normalise_sub_grid, read_items in Hrow.
    destruct (items h sub_grid) as [specs|]; [|discriminate].
    cbn [rbind ok] in Hrow. exists specs. split; [reflexivity|].
    apply mapR_ok_Forall2 in Hrow.
    eapply Forall2_impl; [exact Hrow|].
    intros spec entry. apply normalise_dimension_entry.
Qed.

Lemma check_grid_shape_witness :
  well_formed [] one_int_grid = true
  /\ check_grid one_int_grid [] = (one_int_store, ok (VList 1))
  /\ exists sub_grids rows,
       read_grid one_int_store (VList 1) = Some rows
       /\ (sub_grids = [one_int_grid] \/ items [] one_int_grid = Some sub_grids)
       /\ Forall2 (fun sub_grid row =>
                     exists specs,
                       items [] sub_grid = Some specs
                       /\ Forall2 entry_of specs row) sub_grids rows.
Proof.
  split; [reflexivity|]. split; [reflexivity|].
  apply (check_grid_shape one_int_grid [] one_int_store (VList 1));
    reflexivity.
Defined.

(** ** Normalising twice *)

Lemma normalise_dimension_number_or_str (h : heap) (spec : val) :
  isinstance_Number spec || isinstance_str spec = true ->
  raises (normalise_dimension h spec).
Proof.
  destruct spec; try discriminate; intros _; try exact I.
  unfold normalise_dimension, read_items. cbn [isinstance_Distribution items].
  cbn [rbind ok].
  destruct (2 <? length (chars s))%nat; [exact I|].
  destruct s as [|a s]; [exact I|].
  unfold chars. cbn [String.list_ascii_of_string fmap list_fmap].
  rewrite index_head. exact I.
Qed.

Lemma normalise_dimension_settled (h h1 : heap) (spec e : val) :
  h `prefix_of` h1 ->
  valid h spec ->
  normalise_dimension h spec = ok e ->
  settled h1 e /\ valid h1 e.
Proof.
  intros Hp Hv He.
  destruct (normalise_dimension_entry h spec e He) as [-> | [_ Hd]].
  - split; [split|].
    + rewrite (normalise_dimension_stable h h1 Hp spec Hv). exact He.
    + destruct (isinstance_Number spec || isinstance_str spec) eqn:E;
        [|reflexivity].
      pose proof (normalise_dimension_number_or_str h spec E) as Hr.
      rewrite He in Hr. contradiction.
    + eapply valid_extend; eassumption.
  - destruct e; try discriminate Hd. repeat split.
Qed.

Lemma mapR_settled (h : heap) (row : list val) :
  Forall (settled h) row -> mapR (normalise_dimension h) row = ok row.
Proof.
  induction 1 as [|e row [He _] _ IH]; [reflexivity|].
  cbn [mapR]. rewrite He, IH. reflexivity.
Qed.

Lemma normalise_rows_settled (h h1 : heap) (grid : val)
    (rows : list (list val)) :
  wf_grid h grid ->
  h `prefix_of` h1 ->
  normalise h grid = ok rows ->
  Forall (Forall (fun e => settled h1 e /\ valid h1 e)) rows.
Proof.
  intros Hwf Hp. unfold normalise.
  destruct (flat h grid) as [e|is_flat]; [discriminate|]. cbn [rbind].
  destruct (if is_flat then ok [grid] else read_items h grid)
    as [e|sub_grids] eqn:Hsg; [discriminate|].
  cbn [rbind]. intros Hrows.
  assert (Forall (valid_sub_grid h) sub_grids) as Hvalid.
  { destruct is_flat.
    - injection Hsg as <-. constructor; [apply wf_grid_flat, Hwf|constructor].
    - unfold read_items in Hsg.
      destruct (items h grid) as [xs|] eqn:Hi; [|discriminate].
      injection Hsg as <-. apply (wf_grid_sub_grids h grid xs Hwf Hi). }
  apply mapR_ok_Forall2 in Hrows. clear Hsg.
  revert Hvalid. induction Hrows as [|sg row sgs rows' Hrow _ IH];
    intros Hvalid; [constructor|].
  inversion Hvalid as [|? ? [_ Hspecs] Hrest]; subst.
  constructor; [|apply IH, Hrest].
  unfold normalise_sub_grid, read_items in Hrow.
  destruct (items h sg) as [specs|]; [|discriminate].
  cbn [rbind ok] in Hrow. apply mapR_ok_Forall2 in Hrow.
  specialize (Hspecs specs eq_refl).
  clear - Hp Hrow Hspecs.
  induction Hrow as [|spec e specs' row' He _ IH]; [constructor|].
  inversion Hspecs; subst.
  constructor; [eapply normalise_dimension_settled; eassumption|].
  apply IH. assumption.
Qed.

Lemma check_grid_again (grid : val) (h h1 : heap) (g1 : val) (x : val)
    (row : list val) (rows : list (list val)) :
  wf_grid h grid ->
  check_grid grid h = (h1, ok g1) ->
  read_grid h1 g1 = Some ((x :: row) :: rows) ->
  wf_grid h1 g1 /\ normalise h1 g1 = ok ((x :: row) :: rows).
Proof.
  intros Hwf Hc Hread.
  destruct (hoare_check_grid h grid h) as [Hp Hpost]; [reflexivity|].
  rewrite Hc in Hp, Hpost. cbn [fst snd] in Hp, Hpost.
  destruct (Hpost g1 eq_refl) as (g & -> & _ & _ & subs & Hsubs & Hfresh).
  pose proof (check_grid_refines h grid Hwf) as Href.
  rewrite Hc in Href. cbn [fst snd] in Href.
  destruct (normalise h grid) as [e|rows'] eqn:Hnorm; [discriminate Href|].
  destruct Href as (g' & [= <-] & Hread').
  rewrite Hread in Hread'. injection Hread' as <-.
  pose proof (normalise_rows_settled h h1 grid _ Hwf Hp Hnorm) as Hset.
  unfold read_grid in Hread. cbn [items] in Hread. rewrite Hsubs in Hread.
  cbn [mbind option_bind] in Hread. apply mapM_Some_1 in Hread.
  assert (Forall (valid_sub_grid h1) subs) as Hvsubs.
  { clear - Hread Hset Hfresh. revert Hset Hfresh.
    induction Hread as [|s r ss rs Hs _ IH]; intros Hset Hfresh;
      [constructor|].
    inversion Hset as [|? ? Hr Hrs]; subst.
    inversion Hfresh as [|? ? (l & -> & _) Hfr]; subst.
    constructor; [|apply IH; assumption].
    split; [eapply lookup_lt_Some; exact Hs|].
    intros ys Hys. rewrite Hs in Hys. injection Hys as <-.
    eapply Forall_impl; [exact Hr|]. intros e [_ He]. exact He. }
  split.
  - split; [eapply lookup_lt_Some; exact Hsubs|].
    intros xs Hxs. cbn [items] in Hxs. rewrite Hsubs in Hxs.
    injection Hxs as <-. exact Hvsubs.
  - inversion Hread as [|s0 r0 subs' rows' Hs0 Hss]; subst.
    inversion Hfresh as [|? ? (l0 & -> & _) _]; subst.
    inversion Hset as [|? ? Hr0 _]; subst.
    inversion Hr0 as [|? ? [[_ Hx] _] _]; subst.
    assert (flat h1 (VList g) = ok false) as Hflat.
    { unfold flat, read_items. cbn [items]. rewrite Hsubs. cbn [rbind ok].
      rewrite index_head. cbn [rbind ok isinstance_Distribution].
      cbn [items] in Hs0. cbn [isinstance_Sequence items]. rewrite Hs0.
      cbn [rbind ok]. rewrite index_head. cbn [rbind ok].
      rewrite Hx. reflexivity. }
    unfold normalise. rewrite Hflat. cbn [rbind]. unfold read_items at 1.
    cbn [items]. rewrite Hsubs. cbn [rbind ok].
    clear - Hread Hset.
    revert Hset. induction Hread as [|s r ss rs Hs _ IH]; intros Hset;
      [reflexivity|].
    inversion Hset as [|? ? Hr Hrs]; subst.
    cbn [mapR]. unfold normalise_sub_grid at 1. unfold read_items.
    rewrite Hs. cbn [rbind ok].
    rewrite mapR_settled
      by (eapply Forall_impl; [exact Hr|]; intros e [He _]; exact He).
    cbn [rbind ok]. rewrite (IH Hrs). reflexivity.
Qed.

(** X9: normalising the grid that [check_grid] returned gives the same rows
    again, provided the first row has an entry (the flat test reads it). *)
Theorem check_grid_idempotent (grid : val) (h h1 : heap) (g1 : val) (x : val)
    (row : list val) (rows : list (list val)) :
  well_formed h grid = true ->
  check_grid grid h = (h1, ok g1) ->
  read_grid h1 g1 = Some ((x :: row) :: rows) ->
  exists g2,
    snd (check_grid g1 h1) = ok (VList g2)
    /\ read_grid (fst (check_grid g1 h1)) (VList g2)
       = Some ((x :: row) :: rows).
Proof.
  intros Hwf Hc Hread. apply well_formed_wf in Hwf.
  destruct (check_grid_again grid h h1 g1 x row rows Hwf Hc Hread)
    as [Hwf1 Hnorm].
  pose proof (check_grid_refines h1 g1 Hwf1) as Href.
  rewrite Hnorm in Href. exact Href.
Qed.

(** X10: a run on the grid that [check_grid] returned shows what a run on the
    grid itself shows, from the same generators: the sampler takes raw and
    normalised grids alike. *)
Theorem sample_points_normalised `{SciPy} (grid : val) (n_points : Z)
    (random_state : val) (h h1 : heap) (g1 : val) (x : val)
    (row : list val) (rows : list (list val)) (w : rngs) :
  well_formed h grid = true ->
  check_grid grid h = (h1, ok g1) ->
  read_grid h1 g1 = Some ((x :: row) :: rows) ->
  snd (sample_points g1 n_points random_state h1 w)
  = snd (sample_points grid n_points random_state h w).
Proof.
  intros Hwf Hc Hread. apply well_formed_wf in Hwf.
  destruct (check_grid_again grid h h1 g1 x row rows Hwf Hc Hread)
    as [Hwf1 Hnorm].
  pose proof (check_grid_refines h1 g1 Hwf1) as Href.
  rewrite Hnorm in Href. destruct Href as (g2 & Hs2 & Hread2).
  unfold sample_points. rewrite Hc.
  destruct (check_grid g1 h1) as [h2 r2]. cbn [fst snd] in Hs2, Hread2.
  subst r2. unfold ok.
  destruct (check_random_state random_state w) as [w' [e|rng]]; [reflexivity|].
  rewrite (sample_loop_rows h2 h1 (VList g2) g1 _ rng _ w' Hread2 Hread).
  destruct (sample_loop h1 g1 rng (Z.to_nat n_points) w'). reflexivity.
Qed.

Lemma check_grid_idempotent_witness :
  well_formed [] one_int_grid = true
  /\ check_grid one_int_grid [] = (one_int_store, ok (VList 1))
  /\ read_grid one_int_store (VList 1) = Some [[one_int_dimension]]
  /\ exists g2,
       snd (check_grid (VList 1) one_int_store) = ok (VList g2)
       /\ read_grid (fst (check_grid (VList 1) one_int_store)) (VList g2)
          = Some [[one_int_dimension]].
Proof.
  split; [reflexivity|]. split; [reflexivity|]. split; [reflexivity|].
  apply (check_grid_idempotent one_int_grid [] one_int_store (VList 1)
           one_int_dimension [] []); reflexivity.
Defined.

Lemma sample_points_normalised_witness :
  well_formed two_labels_store (VList 0) = true
  /\ check_grid (VList 0) two_labels_store
     = (two_labels_normalised, ok (VList 2))
  /\ read_grid two_labels_normalised (VList 2)
     = Some [[two_labels; two_labels]]
  /\ snd (@sample_points scipy_0_17 (VList 2) 3 (VInt 42)
            two_labels_normalised (@mk_rngs scipy_0_17 0%Z []))
     = snd (@sample_points scipy_0_17 (VList 0) 3 (VInt 42) two_labels_store
              (@mk_rngs scipy_0_17 0%Z [])).
Proof.
  split; [reflexivity|]. split; [reflexivity|]. split; [reflexivity|].
  apply (@sample_points_normalised scipy_0_17 (VList 0) 3 (VInt 42)
           two_labels_store two_labels_normalised (VList 2) two_labels
           [two_labels] [] (@mk_rngs scipy_0_17 0%Z [])); reflexivity.
Defined.

(** ** The arity of the points *)

Section Arity.
Context `{SciPy}.

Lemma mapST_length {S A B} (f : A -> ST S B) (xs : list A) :
  forall (w w' : S) (ys : list B),
    mapST f xs w = (w', ok ys) -> length ys = length xs.
Proof.
  induction xs as [|x xs IH]; intros w w' ys.
  - intros [= _ <-]. reflexivity.
  - cbn [mapST]. unfold bind.
    destruct (f x w) as [w1 [e|y]]; [discriminate|].
    destruct (mapST f xs w1) as [w2 [e|ys']] eqn:Hxs; [discriminate|].
    intros [= _ <-]. cbn [length]. f_equal. eapply IH, Hxs.
Qed.

Lemma sample_row_arity (rows : list (list val)) (rng : rng_ref)
    (w w' : rngs) (v : val) :
  sample_row rows rng w = (w', ok v) -> point_of rows v.
Proof.
  unfold sample_row, bind.
  destruct (with_rng rng _ w) as [w1 [e|k]]; [discriminate|].
  unfold lift. destruct (index rows k) as [e|row] eqn:Hk; [discriminate|].
  destruct (mapST _ row w1) as [w2 [e|ps]] eqn:Hps; [discriminate|].
  intros [= _ <-]. exists ps, row.
  split; [reflexivity|]. split; [eapply index_elem_of, Hk|].
  eapply mapST_length, Hps.
Qed.

Lemma sample_loop_arity (h : heap) (grid_ : val) (rows : list (list val))
    (rng : rng_ref) (n : nat) :
  read_grid h grid_ = Some rows ->
  forall w, Forall (point_of rows) (yielded (snd (sample_loop h grid_ rng n w))).
Proof.
  intros Hr. induction n as [|n IH]; intros w; [constructor|].
  cbn [sample_loop]. rewrite (sample_point_rows h grid_ rows rng w Hr).
  destruct (sample_row rows rng w) as [w' [e|p]] eqn:Hp; [constructor|].
  specialize (IH w').
  destruct (sample_loop h grid_ rng n w') as [w'' out]. cbn [snd yielded] in *.
  constructor; [eapply sample_row_arity, Hp|exact IH].
Qed.

(** X11: every value a run yields is a tuple with exactly one entry for each
    dimension of one of the sub-grids of the normalised grid. *)
Theorem sample_points_arity (grid : val) (n_points : Z) (random_state : val)
    (h h' : heap) (w : rngs) (g : val) (rows : list (list val)) :
  check_grid grid h = (h', ok g) ->
  read_grid h' g = Some rows ->
  Forall (point_of rows)
    (yielded (snd (sample_points grid n_points random_state h w))).
Proof.
  intros Hc Hr. unfold sample_points. rewrite Hc. unfold ok.
  destruct (check_random_state random_state w) as [w' [e|rng]]; [constructor|].
  pose proof (sample_loop_arity h' g rows rng (Z.to_nat n_points) Hr w') as Ha.
  destruct (sample_loop h' g rng (Z.to_nat n_points) w') as [w'' out].
  exact Ha.
Qed.

End Arity.

Lemma sample_points_arity_witness :
  check_grid (VList 0) two_labels_store = (two_labels_normalised, ok (VList 2))
  /\ read_grid two_labels_normalised (VList 2)
     = Some [[two_labels; two_labels]]
  /\ Forall (point_of [[two_labels; two_labels]])
       (yielded (snd (@sample_points scipy_0_17 (VList 0) 3 (VInt 42)
                        two_labels_store (@mk_rngs scipy_0_17 0%Z [])))).
Proof.
  split; [reflexivity|]. split; [reflexivity|].
  apply (@sample_points_arity scipy_0_17 (VList 0) 3 (VInt 42)
           two_labels_store two_labels_normalised
           (@mk_rngs scipy_0_17 0%Z []) (VList 2)
           [[two_labels; two_labels]]); reflexivity.
Defined.

(** ** How many points, and what a run leaves behind *)

Section SamplePointsEffects.
Context `{SciPy}.

Lemma sample_loop_count (h : heap) (grid_ : val) (rng : rng_ref) (n : nat) :
  forall w,
    match raised (snd (sample_loop h grid_ rng n w)) with
    | None => length (yielded (snd (sample_loop h grid_ rng n w))) = n
    | Some _ => (length (yielded (snd (sample_loop h grid_ rng n w))) < n)%nat
    end.
Proof.
  induction n as [|n IH]; intros w; [reflexivity|].
  simpl. destruct (sample_point h grid_ rng w) as [w' [e|p]]; simpl; [lia|].
  specialize (IH w').
  destruct (sample_loop h grid_ rng n w') as [w'' g]. simpl in *.
  destruct (raised g); simpl; lia.
Qed.

(** X12: a run that ends without an exception has yielded exactly
    [n_points] tuples (none when [n_points] is not positive); a run that
    ends with an exception has yielded fewer than were asked for. *)
Theorem sample_points_count (grid : val) (n_points : Z) (random_state : val)
    (h : heap) (w : rngs) :
  let out := snd (sample_points grid n_points random_state h w) in
  match raised out with
  | None => length (yielded out) = Z.to_nat n_points
  | Some _ =>
      (length (yielded out) < Z.to_nat n_points)%nat
      \/ ((n_points <= 0)%Z /\ yielded out = [])
  end.
Proof.
  cbn zeta. unfold sample_points.
  assert (forall e : exn,
            (0 < Z.to_nat n_points)%nat \/ ((n_points <= 0)%Z /\ @nil val = []))
    as Hnone
    by (intros _; destruct (Z.to_nat n_points) eqn:E;
        [right; split; [lia|reflexivity]|left; lia]).
  destruct (check_grid grid h) as [h' [e|grid_]]; [exact (Hnone e)|].
  destruct (check_random_state random_state w) as [w' [e|rng]];
    [exact (Hnone e)|].
  pose proof (sample_loop_count h' grid_ rng (Z.to_nat n_points) w') as Hc.
  destruct (sample_loop h' grid_ rng (Z.to_nat n_points) w') as [w'' g].
  simpl in *. destruct (raised g); [left|]; exact Hc.
Qed.

(** X13: a run leaves every list that existed before it as it was,
    whatever the grid, the seed and the outcome: the store after a run is
    the store before it, then the lists the run created. *)
Theorem sample_points_leaves_store (grid : val) (n_points : Z)
    (random_state : val) (h : heap) (w : rngs) :
  exists created : heap,
    fst (fst (sample_points grid n_points random_state h w)) = h ++ created.
Proof.
  unfold sample_points.
  destruct (hoare_check_grid h grid h) as [Hc _]; [reflexivity|].
  destruct (check_grid grid h) as [h' [e|grid_]]; [exact Hc|].
  destruct (check_random_state random_state w) as [w' [e|rng]]; [exact Hc|].
  destruct (sample_loop h' grid_ rng (Z.to_nat n_points) w'). exact Hc.
Qed.

End SamplePointsEffects.

(** ** Sampling from bounded dimensions *)

Section BoundedRaise.
Context `{SciPy}.

Lemma call_rvs_bounded_raises (d n_samples random_state : val) (w : rngs) :
  bounded_dimension d -> raises (snd (call_rvs d n_samples random_state w)).
Proof.
  destruct d; try contradiction. destruct d; try contradiction; intros _;
    simpl;
    destruct (clipped_rvs_outcome _rvs0 n_samples random_state w) as [HR HI];
    rewrite ?HI, HR;
    destruct (snd (scipy_rvs _ n_samples random_state w)); exact I.
Qed.

Lemma sample_row_bounded_raises (rows : list (list val)) (rng : rng_ref)
    (w : rngs) :
  Forall starts_bounded rows -> raises (snd (sample_row rows rng w)).
Proof.
  intros Hrows. unfold sample_row, bind.
  destruct (with_rng rng _ w) as [w1 [e|k]]; [exact I|].
  unfold lift. destruct (index rows k) as [e|row] eqn:Hk; [exact I|].
  apply index_elem_of in Hk. rewrite Forall_forall in Hrows.
  specialize (Hrows row Hk). destruct row as [|d ds]; [contradiction|].
  cbn [mapST]. unfold bind at 1.
  assert (forall rs, raises (snd (call_rvs d VNone rs w1))) as Hd
    by (intros rs; apply call_rvs_bounded_raises, Hrows).
  destruct (tuple_lt sp_version [0; 16]%Z).
  - specialize (Hd VNone). destruct (call_rvs d VNone VNone w1) as [w2 [e|v]];
      [exact I|contradiction].
  - specialize (Hd (VRandomState rng)).
    destruct (call_rvs d VNone (VRandomState rng) w1) as [w2 [e|v]];
      [exact I|contradiction].
Qed.

Lemma sample_loop_bounded (h : heap) (grid_ : val) (rows : list (list val))
    (rng : rng_ref) (n : nat) (w : rngs) :
  read_grid h grid_ = Some rows ->
  Forall starts_bounded rows ->
  (0 < n)%nat ->
  yielded (snd (sample_loop h grid_ rng n w)) = []
  /\ is_Some (raised (snd (sample_loop h grid_ rng n w))).
Proof.
  intros Hr Hrows Hn. destruct n as [|n]; [lia|].
  cbn [sample_loop]. rewrite (sample_point_rows h grid_ rows rng w Hr).
  pose proof (sample_row_bounded_raises rows rng w Hrows) as Hraise.
  destruct (sample_row rows rng w) as [w' [e|p]]; [|contradiction].
  split; [reflexivity|eexists; reflexivity].
Qed.

(** X14: whatever the scipy, the seed and the number of points asked for (one
    at least), no point is obtained from a grid whose sub-grids all start
    with a [Real] or an [Integer]: iterating raises before the first
    tuple. *)
Theorem sample_points_bounded_yields_nothing (grid : val) (n_points : Z)
    (random_state : val) (h h' : heap) (w : rngs) (g : val)
    (rows : list (list val)) :
  check_grid grid h = (h', ok g) ->
  read_grid h' g = Some rows ->
  Forall starts_bounded rows ->
  (0 < n_points)%Z ->
  yielded (snd (sample_points grid n_points random_state h w)) = []
  /\ is_Some (raised (snd (sample_points grid n_points random_state h w))).
Proof.
  intros Hc Hr Hrows Hn. unfold sample_points. rewrite Hc. unfold ok.
  destruct (check_random_state random_state w) as [w' [e|rng]];
    [split; [reflexivity|eexists; reflexivity]|].
  pose proof (sample_loop_bounded h' g rows rng (Z.to_nat n_points) w' Hr
                Hrows ltac:(lia)) as Hloop.
  destruct (sample_loop h' g rng (Z.to_nat n_points) w') as [w'' out].
  exact Hloop.
Qed.

(** X15: in particular no point is obtained from a flat grid of specs
    [(low, high)]. *)
Theorem sample_points_flat_bounds_yields_nothing (b : bounds)
    (bs : list bounds) (n_points : Z) (random_state : val) (h : heap)
    (w : rngs) :
  (0 < n_points)%Z ->
  let out := snd (sample_points (VTuple (spec_of <$> b :: bs)) n_points
                    random_state h w) in
  yielded out = [] /\ is_Some (raised out).
Proof.
  intros Hn. cbn zeta.
  pose proof (check_grid_refines h _ (wf_grid_flat_bounds h (b :: bs)))
    as Href.
  rewrite normalise_flat_bounds in Href. destruct Href as (g & Hs & Hr).
  unfold sample_points.
  destruct (check_grid (VTuple (spec_of <$> b :: bs)) h) as [h' r].
  cbn [fst snd] in Hs, Hr. subst r. unfold ok.
  destruct (check_random_state random_state w) as [w' [e|rng]];
    [split; [reflexivity|eexists; reflexivity]|].
  assert (Forall starts_bounded [dimension_of <$> b :: bs]) as Hrows
    by (constructor; [destruct b; exact I|constructor]).
  pose proof (sample_loop_bounded h' (VList g) _ rng (Z.to_nat n_points) w'
                Hr Hrows ltac:(lia)) as Hloop.
  destruct (sample_loop h' (VList g) rng (Z.to_nat n_points) w') as [w'' out].
  exact Hloop.
Qed.

End BoundedRaise.

Lemma sample_points_bounded_yields_nothing_witness :
  let out := snd (@sample_points scipy_0_17 one_int_grid 3 (VInt 42) []
                    (@mk_rngs scipy_0_17 0%Z [])) in
  check_grid one_int_grid [] = (one_int_store, ok (VList 1))
  /\ read_grid one_int_store (VList 1) = Some [[one_int_dimension]]
  /\ yielded out = [] /\ is_Some (raised out).
Proof.
  split; [reflexivity|]. split; [reflexivity|].
  apply (@sample_points_bounded_yields_nothing scipy_0_17 one_int_grid 3
           (VInt 42) [] one_int_store (@mk_rngs scipy_0_17 0%Z []) (VList 1)
           [[one_int_dimension]]);
    [reflexivity|reflexivity|repeat constructor|lia].
Defined.

Lemma sample_points_flat_bounds_yields_nothing_witness :
  let out := snd (@sample_points scipy_0_15
                    (VTuple [VTuple [VInt 1; VInt 2];
                             VTuple [VFloat 3; VFloat 5]])
                    1 VNone [] (@mk_rngs scipy_0_15 0%Z [])) in
  yielded out = [] /\ is_Some (raised out).
Proof.
  apply (@sample_points_flat_bounds_yields_nothing scipy_0_15
           (IntBounds 1 2) [RealBounds 3 5] 1 VNone []
           (@mk_rngs scipy_0_15 0%Z [])).
  lia.
Defined.

(** ** The generators a run draws from *)

Section Preserves.
Context `{SciPy}.
Variable I : rngs -> Prop.

Lemma preserves_lift {A} (r : result A) : preserves I (lift r).
Proof. intros w Hw. exact Hw. Qed.

Lemma preserves_ret {A} (a : A) : preserves I (ret a).
Proof. intros w Hw. exact Hw. Qed.

Lemma preserves_throw {A} (e : exn) : preserves I (@throw rngs A e).
Proof. intros w Hw. exact Hw. Qed.

Lemma preserves_bind {A B} (c : ST rngs A) (k : A -> ST rngs B) :
  preserves I c -> (forall a, preserves I (k a)) -> preserves I (bind c k).
Proof.
  intros Hc Hk w Hw. unfold bind. specialize (Hc w Hw).
  destruct (c w) as [w' [e|a]]; [exact Hc|]. apply Hk, Hc.
Qed.

Lemma preserves_mapST {A B} (f : A -> ST rngs B) (xs : list A) :
  (forall x, preserves I (f x)) -> preserves I (mapST f xs).
Proof.
  intros Hf. induction xs as [|x xs IH]; simpl; [apply preserves_ret|].
  apply preserves_bind; [apply Hf|intros y].
  apply preserves_bind; [exact IH|intros ys]. apply preserves_ret.
Qed.

(** A draw of scipy reads the generator it is given, the generator of the
    process when it is given none, or raises before it reads any. *)
Lemma preserves_scipy_rvs_given (r : rv) (size : val) (g : rng_ref) :
  (forall A (draw : RandomState -> RandomState * result A),
     preserves I (with_rng g draw)) ->
  preserves I (scipy_rvs r size (VRandomState g)).
Proof.
  intros Hg w Hw. unfold scipy_rvs.
  destruct (tuple_lt sp_version [0; 16]%Z); [exact Hw|]. apply Hg, Hw.
Qed.

Lemma preserves_scipy_rvs_None (r : rv) (size : val) :
  (forall A (draw : RandomState -> RandomState * result A),
     preserves I (with_rng GlobalRng draw)) ->
  preserves I (scipy_rvs r size VNone).
Proof.
  intros Hg w Hw. unfold scipy_rvs.
  destruct (tuple_lt sp_version [0; 16]%Z); [exact Hw|]. apply Hg, Hw.
Qed.

(** The draws of a dimension go through [scipy_rvs] only. *)
Lemma preserves_call_rvs (dist size random_state : val) :
  (forall r, preserves I (scipy_rvs r size random_state)) ->
  preserves I (call_rvs dist size random_state).
Proof.
  intros Hdraw. destruct dist; try apply preserves_throw.
  destruct d; simpl; unfold Real_rvs, Integer_rvs, Categorical_rvs;
    (apply preserves_bind; [apply Hdraw|intros ?]);
    repeat (apply preserves_bind; [apply preserves_lift|intros ?]);
    apply preserves_lift.
Qed.

(** A run whose sub-grid draws and dimension draws keep [I] keeps it. *)
Variable rng : rng_ref.
Hypothesis choice_keeps :
  forall A (draw : RandomState -> RandomState * result A),
    preserves I (with_rng rng draw).
Hypothesis dimension_keeps :
  forall r size,
    preserves I (scipy_rvs r size
                   (if tuple_lt sp_version [0; 16]%Z then VNone
                    else VRandomState rng)).

Lemma preserves_sample_point (h : heap) (grid_ : val) :
  preserves I (sample_point h grid_ rng).
Proof.
  unfold sample_point.
  apply preserves_bind; [apply preserves_lift|intros n].
  apply preserves_bind; [apply choice_keeps|intros k].
  apply preserves_bind; [apply preserves_lift|intros sub_grid].
  apply preserves_bind; [apply preserves_lift|intros dists].
  apply preserves_bind; [|intros params; apply preserves_ret].
  apply preserves_mapST. intros dist.
  pose proof dimension_keeps as Hd.
  destruct (tuple_lt sp_version [0; 16]%Z);
    apply preserves_call_rvs; intros r; apply Hd.
Qed.

Lemma preserves_sample_loop (h : heap) (grid_ : val) (n : nat) (w : rngs) :
  I w -> I (fst (sample_loop h grid_ rng n w)).
Proof.
  revert w. induction n as [|n IH]; intros w Hw; [exact Hw|].
  simpl. pose proof (preserves_sample_point h grid_ w Hw) as Hp.
  destruct (sample_point h grid_ rng w) as [w' [e|p]]; [exact Hp|].
  specialize (IH w' Hp).
  destruct (sample_loop h grid_ rng n w') as [w'' g]. exact IH.
Qed.

End Preserves.

Lemma own_generator_with_rng `{SciPy} (w0 : rngs) {A}
    (draw : RandomState -> RandomState * result A) :
  preserves (own_generator w0)
    (with_rng (Instance (length (instances w0))) draw).
Proof.
  intros w [Hnp [st Hst]]. unfold with_rng. rewrite Hst.
  rewrite list_lookup_middle by reflexivity.
  destruct (draw st) as [st' a]. simpl.
  split; [exact Hnp|]. exists st'.
  rewrite insert_app_r_alt by lia. rewrite Nat.sub_diag. reflexivity.
Qed.

(** X16: with scipy 0.16 or later, a run with an integer seed draws from the
    generator it creates and from no other: the generator of the process
    and the generators that existed before are left in the state they were
    in. *)
Theorem sample_points_seeded_keeps_generators `{SciPy} (grid : val)
    (n_points seed : Z) (h : heap) (w : rngs) :
  tuple_lt sp_version [0; 16]%Z = false ->
  let w' := snd (fst (sample_points grid n_points (VInt seed) h w)) in
  np_random w' = np_random w
  /\ (instances w' = instances w
      \/ exists st, instances w' = instances w ++ [st]).
Proof.
  intros seeded. cbn zeta. unfold sample_points.
  destruct (check_grid grid h) as [h' [e|grid_]]; [split; [|left]; reflexivity|].
  unfold check_random_state, as_number. cbn beta iota.
  destruct (RandomState_seed seed) as [e|st]; [split; [|left]; reflexivity|].
  unfold ok. cbn beta iota.
  pose proof (preserves_sample_loop (own_generator w)
                (Instance (length (instances w)))
                (fun A draw => own_generator_with_rng w draw)) as Hk.
  rewrite seeded in Hk.
  specialize (Hk (fun r size =>
                    preserves_scipy_rvs_given (own_generator w) r size _
                      (fun A draw => own_generator_with_rng w draw))
                h' grid_ (Z.to_nat n_points)
                (mk_rngs (np_random w) (instances w ++ [st]))).
  destruct (sample_loop h' grid_ _ _ _) as [w'' g]. simpl in *.
  destruct Hk as [Hnp Hst]; [split; [reflexivity|exists st; reflexivity]|].
  split; [exact Hnp|right; exact Hst].
Qed.

Lemma sample_points_seeded_keeps_generators_witness :
  let w := @mk_rngs scipy_0_17 5%Z [9%Z] in
  let w' := snd (fst (@sample_points scipy_0_17 (VList 0) 3 (VInt 42)
                        two_labels_store w)) in
  np_random w' = np_random w
  /\ (instances w' = instances w
      \/ exists st, instances w' = instances w ++ [st]).
Proof.
  apply (@sample_points_seeded_keeps_generators scipy_0_17 (VList 0) 3 42
           two_labels_store (@mk_rngs scipy_0_17 5%Z [9%Z])).
  reflexivity.
Defined.

(** X17: with [random_state=None] a run creates no generator and touches none of
    those that exist: every draw, of a sub-grid or of a dimension, comes
    from the generator of the process, with any scipy. *)
Theorem sample_points_unseeded_keeps_instances `{SciPy} (grid : val)
    (n_points : Z) (h : heap) (w : rngs) :
  instances (snd (fst (sample_points grid n_points VNone h w))) = instances w.
Proof.
  unfold sample_points.
  destruct (check_grid grid h) as [h' [e|grid_]]; [reflexivity|].
  cbn [check_random_state]. unfold ok.
  assert (forall A (draw : RandomState -> RandomState * result A),
            preserves (fun w' => instances w' = instances w)
              (with_rng GlobalRng draw)) as Hglobal.
  { intros A draw w1 Hw1. unfold with_rng.
    destruct (draw (np_random w1)) as [st a]. exact Hw1. }
  pose proof (preserves_sample_loop (fun w' => instances w' = instances w)
                GlobalRng Hglobal) as Hk.
  assert (forall r size,
            preserves (fun w' => instances w' = instances w)
              (scipy_rvs r size
                 (if tuple_lt sp_version [0; 16]%Z then VNone
                  else VRandomState GlobalRng))) as Hdim
    by (intros r size; destruct (tuple_lt sp_version [0; 16]%Z);
        [apply preserves_scipy_rvs_None|apply preserves_scipy_rvs_given];
        exact Hglobal).
  specialize (Hk Hdim h' grid_ (Z.to_nat n_points) w eq_refl).
  destruct (sample_loop h' grid_ GlobalRng (Z.to_nat n_points) w) as [w'' g].
  exact Hk.
Qed.
